(** * archinstall/lib/luks.py: the [luks2] encryption session

    A shallow embedding of the [luks2] class: credential resolution, the
    prompt-detection polling loops that drive [cryptsetup], busy recovery in
    [encrypt], and the [unlock]/[close] life cycle of the mapped device.

    Conventions.
    - A Python [str] is a [string] holding its UTF-8 encoding, so that
      [bytes(s, 'UTF-8')] is the list of its bytes.
    - Everything the class does to the outside world is recorded, in order,
      in a trace of [event]s.  What the outside world answers (key-file
      contents, how a spawned process behaves, what [lsblk] prints, whether a
      path is a symbolic link) is read from an [environment] of oracles that
      may depend on the whole trace so far.
    - A spawned process is given by what its caller observes of it: the
      output collected at each turn of [while worker.is_alive()], and the
      exit code.  The loops have no timeout, so a process that never exits
      keeps its method from returning; the loops are defined on every list
      of observations, hence on every finite stretch of such a run too.
    - Calls to [log] are not part of the model. *)

From Stdlib Require Import String Ascii List ZArith Bool Lia.
From Stdlib Require Import Strings.Byte Numbers.DecimalString.
Import ListNotations.

Open Scope string_scope.
Open Scope list_scope.

(** ** Python values used by the class *)

Definition bytes := list byte.

Definition encode_utf8 (s : string) : bytes := list_byte_of_string s.

(** [Union[str, bytes]]: a passphrase is handed over as text or as raw bytes. *)
Inductive secret :=
| SecretStr (s : string)
| SecretBytes (b : bytes).

(** Python truthiness of the values the class tests with [not x], [if x]. *)
Definition str_truthy (s : string) : bool :=
  match s with EmptyString => false | String _ _ => true end.

Definition secret_truthy (p : secret) : bool :=
  match p with
  | SecretStr s => str_truthy s
  | SecretBytes [] => false
  | SecretBytes (_ :: _) => true
  end.

Definition truthy {A} (t : A -> bool) (o : option A) : bool :=
  match o with Some a => t a | None => false end.

(** [x = x if x else y], the fallback idiom of lines 70-73 and 166-169. *)
Definition or_else {A} (t : A -> bool) (x y : option A) : option A :=
  if truthy t x then x else y.

(** [if type(password) != bytes: password = bytes(password, 'UTF-8')] *)
Definition to_bytes (p : secret) : bytes :=
  match p with
  | SecretStr s => encode_utf8 s
  | SecretBytes b => b
  end.

(** [b.rstrip(b'\r\n')]: drop every trailing byte that is CR or LF. *)
Definition is_crlf (b : byte) : bool :=
  (Byte.eqb b x0d || Byte.eqb b x0a)%bool.

Definition rstrip_crlf (l : bytes) : bytes :=
  fold_right
    (fun b acc =>
       match acc with
       | [] => if is_crlf b then [] else [b]
       | _ :: _ => b :: acc
       end)
    [] l.

(** [needle in haystack] on bytes. *)
Fixpoint starts_with (needle hay : bytes) : bool :=
  match needle, hay with
  | [], _ => true
  | _ :: _, [] => false
  | a :: n', b :: h' => (Byte.eqb a b && starts_with n' h')%bool
  end.

Fixpoint contains (needle hay : bytes) : bool :=
  (starts_with needle hay
   || match hay with
      | [] => false
      | _ :: h' => contains needle h'
      end)%bool.

(** ['/' in mountpoint] *)
Fixpoint has_slash (s : string) : bool :=
  match s with
  | EmptyString => false
  | String c r => (Ascii.eqb c "/"%char || has_slash r)%bool
  end.

(** [str(n)] for an [int]. *)
Definition str_of_int (n : Z) : string :=
  NilZero.string_of_int (Z.to_int n).

(** *** [shlex.join]

    [shlex.quote] leaves a word alone when it is non-empty and made of
    [[A-Za-z0-9_@%+=:,./-]] only; otherwise it wraps it in single quotes,
    each embedded single quote becoming the five characters
    quote, double quote, quote, double quote, quote. *)
Definition between (lo hi : nat) (c : ascii) : bool :=
  let n := nat_of_ascii c in (Nat.leb lo n && Nat.leb n hi)%bool.

Definition shell_safe (c : ascii) : bool :=
  (between 97 122 c || between 65 90 c || between 48 57 c
   || existsb (Ascii.eqb c)
        ["_"; "@"; "%"; "+"; "="; ":"; ","; "."; "/"; "-"]%char)%bool.

Fixpoint all_chars (p : ascii -> bool) (s : string) : bool :=
  match s with
  | EmptyString => true
  | String c r => (p c && all_chars p r)%bool
  end.

Definition squote : ascii := ascii_of_nat 39.
Definition dquote : ascii := ascii_of_nat 34.

Fixpoint escape_squotes (s : string) : string :=
  match s with
  | EmptyString => EmptyString
  | String c r =>
      if Ascii.eqb c squote
      then String squote (String dquote (String squote (String dquote
             (String squote (escape_squotes r)))))
      else String c (escape_squotes r)
  end.

Definition shlex_quote (s : string) : string :=
  match s with
  | EmptyString => String squote (String squote EmptyString)
  | _ =>
      if all_chars shell_safe s then s
      else String squote (escape_squotes s ++ String squote EmptyString)
  end.

Definition shlex_join (words : list string) : string :=
  String.concat " " (map shlex_quote words).

(** [os.path.basename]: what follows the last ['/']. *)
Fixpoint basename (s : string) : string :=
  match s with
  | EmptyString => EmptyString
  | String c r => if has_slash s then basename r else s
  end.

(** ** Data model *)

Module Partition.
(** Modelled from the spec: the [Partition] class lives in
    [archinstall/lib/disk]; the session only reads its [path] and asks it to
    [partprobe()] and [unmount()]. *)
Record t := { path : string }.
End Partition.

Module MapperDev.
(** Modelled from the spec: the [MapperDev] class lives in
    [archinstall/lib/disk]; a mapped device is exposed under the fixed
    system path [/dev/mapper/<mapping name>], and as an object without
    [__bool__] or [__len__] it is always truthy. *)
Record t := { mappername : string }.
Definition path (d : t) : string := "/dev/mapper/" ++ mappername d.
End MapperDev.

Module Self.
(** The attributes [__init__] stores on the instance ([args] and [kwargs]
    are stored too but never read). *)
Record t := {
  password : option secret;
  key_file : option string;
  partition : Partition.t;
  mountpoint : string;
  auto_unmount : bool;
  filesystem : string;
  mapdev : option MapperDev.t
}.
End Self.

Definition luks2 := Self.t.

(** [luks2.__init__] *)
Definition init (partition : Partition.t) (mountpoint : string)
  (password : option secret) (key_file : option string)
  (auto_unmount : bool) : luks2 :=
  {| Self.password := password;
     Self.key_file := key_file;
     Self.partition := partition;
     Self.mountpoint := mountpoint;
     Self.auto_unmount := auto_unmount;
     Self.filesystem := "crypto_LUKS";
     Self.mapdev := None |}.

Definition set_password (v : option secret) (s : luks2) : luks2 :=
  {| Self.password := v;
     Self.key_file := Self.key_file s;
     Self.partition := Self.partition s;
     Self.mountpoint := Self.mountpoint s;
     Self.auto_unmount := Self.auto_unmount s;
     Self.filesystem := Self.filesystem s;
     Self.mapdev := Self.mapdev s |}.

Definition set_mapdev (v : option MapperDev.t) (s : luks2) : luks2 :=
  {| Self.password := Self.password s;
     Self.key_file := Self.key_file s;
     Self.partition := Self.partition s;
     Self.mountpoint := Self.mountpoint s;
     Self.auto_unmount := Self.auto_unmount s;
     Self.filesystem := Self.filesystem s;
     Self.mapdev := v |}.

(** ** Effects and the outside world *)

(** What the session does, in program order.

    Modelled from the spec: [SysCommand] and [SysCommandWorker] live in
    [archinstall/lib/general], [Partition] in [archinstall/lib/disk].  A
    [SysCommand] runs one command to completion and a failure of it is not
    signalled to the caller; a [SysCommandWorker] starts a process, exposes
    its output so far to [in], takes [write] calls, and reports liveness
    and exit code. *)
Inductive event :=
| Partprobe (dev : string)               (* partition.partprobe() *)
| Unmount (dev : string)                 (* partition.unmount() *)
| Sleep (secs : Z)                       (* time.sleep(secs) *)
| Spawn (cmd : string)                   (* SysCommandWorker(cmd, ...) *)
| Polled (output : bytes)                (* is_alive() was True; output so far *)
| WorkerWrite (data : bytes)             (* worker.write(data) *)
| SysCommand (cmd : string)              (* SysCommand(cmd) *)
| Append (file text : string).           (* open(file, 'a').write(text) *)

(** One spawned process as its caller sees it: the output collected so far
    at each iteration of [while worker.is_alive()], then the exit code. *)
Record run := { polls : list bytes; exit_code : Z }.

(** One entry of [lsblk --fs -J]'s [children] array: [child['name']] and
    [child.get('mountpoint', None)] (absent key and JSON null are [None]). *)
Record child := { child_name : string; child_mountpoint : option string }.

(** The first [blockdevices] entry; [children] is [None] when the key is
    absent. *)
Record devinfo := { children : option (list child) }.

(** The answers of the outside world.  [read_file f] is [None] when
    [pathlib.Path(f).exists()] is false and the contents otherwise.  The
    other oracles are asked with the trace of everything done so far. *)
Record environment := {
  read_file : string -> option bytes;
  worker : list event -> run;
  command_exit_code : list event -> Z;
  lsblk_fs : list event -> devinfo;
  islink : list event -> string -> bool;
  convert_device_to_uuid : string -> string
}.

Inductive exn :=
| AssertionError (msg : string)
| DiskError (msg : string)          (* msg: the fixed head of the message *)
| OSError (errno : Z) (msg : string)
| TypeError.

Inductive outcome (A : Type) :=
| Returns (a : A)
| Raises (e : exn).
Arguments Returns {A} a.
Arguments Raises {A} e.

Record state := { self : luks2; trace : list event }.

(** A method body: it reads and updates the instance, extends the trace,
    and returns or raises. *)
Definition M (A : Type) := state -> outcome A * state.

Definition ret {A} (a : A) : M A := fun st => (Returns a, st).

Definition raise {A} (e : exn) : M A := fun st => (Raises e, st).

Definition bind {A B} (c : M A) (k : A -> M B) : M B :=
  fun st =>
    match c st with
    | (Returns a, st') => k a st'
    | (Raises e, st') => (Raises e, st')
    end.

Notation "x <- c ;; k" := (bind c (fun x => k))
  (at level 61, c at next level, right associativity).
Notation "c ;; k" := (bind c (fun _ => k))
  (at level 61, right associativity).

Definition get_self : M luks2 := fun st => (Returns (self st), st).

Definition update_self (f : luks2 -> luks2) : M unit :=
  fun st => (Returns tt, {| self := f (self st); trace := trace st |}).

Definition history : M (list event) := fun st => (Returns (trace st), st).

Definition emit_all (evs : list event) : M unit :=
  fun st => (Returns tt, {| self := self st; trace := trace st ++ evs |}).

Definition emit (e : event) : M unit := emit_all [e].

(** The events a call added to the trace. *)
Definition new_events (before after : state) : list event :=
  skipn (length (trace before)) (trace after).

(** ** The methods of [luks2] *)

Section Methods.

Variable env : environment.

(** [SysCommandWorker(cmd)]: the process is started; how it will be seen to
    behave is the environment's answer at this point of the trace. *)
Definition SysCommandWorker (cmd : string) : M run :=
  emit (Spawn cmd) ;;
  h <- history ;;
  ret (worker env h).

(** [pathlib.Path(key_file).exists()] *)
Definition path_exists (f : string) : bool :=
  match read_file env f with Some _ => true | None => false end.

(** [with pathlib.Path(key_file).resolve().open('rb') as pwfile:
       pwfile.read().rstrip(b'\r\n')] *)
Definition read_key_file (key_file : option string) : M bytes :=
  match key_file with
  | None => raise TypeError
  | Some f =>
      match read_file env f with
      | None => raise (OSError 2 "No such file or directory")
      | Some contents => ret (rstrip_crlf contents)
      end
  end.

Definition is_none {A} (o : option A) : bool :=
  match o with None => true | Some _ => false end.

Definition missing_credential : exn :=
  AssertionError
    "luks2().encrypt() requires either a `key_file` or a `password` parameter to operate.".

(** Lines 70-86 of [encrypt]; lines 166-182 of [unlock] are the same text,
    message included. *)
Definition resolve_credential
  (password : option secret) (key_file : option string) : M bytes :=
  s <- get_self ;;
  let password := or_else secret_truthy password (Self.password s) in
  let key_file := or_else str_truthy key_file (Self.key_file s) in
  if negb (truthy secret_truthy password || truthy str_truthy key_file)
  then raise missing_credential
  else if is_none password
          && (is_none key_file || negb (truthy path_exists key_file))
  then raise missing_credential
  else
    password <-
      match password with
      | None => read_key_file key_file
      | Some p => ret (to_bytes p)
      end ;;
    ret password.

Definition cryptsetup_args
  (path hash_type : string) (key_size iter_time : Z) : string :=
  shlex_join
    ["/usr/bin/cryptsetup"; "--batch-mode"; "--verbose";
     "--type"; "luks2";
     "--pbkdf"; "argon2id";
     "--hash"; hash_type;
     "--key-size"; str_of_int key_size;
     "--iter-time"; str_of_int iter_time;
     "--use-urandom";
     "luksFormat"; path].

(** [bytes(f'Enter passphrase for {partition.path}', 'UTF-8')] *)
Definition passphrase_prompt (partition : Partition.t) : bytes :=
  encode_utf8 ("Enter passphrase for " ++ Partition.path partition).

Definition py_bool (b : bool) : string := if b then "True" else "False".

(** Lines 108-115: the first polling loop of [encrypt], which also appends
    a line to [debug_outer.txt] at every iteration. *)
Fixpoint encrypt_poll (prompt password : bytes) (polls : list bytes)
  (pw_given : bool) : list event :=
  match polls with
  | [] => []
  | output :: rest =>
      let found := contains prompt output in
      Polled output
      :: Append "debug_outer.txt"
           ("Found string in worker: " ++ py_bool found ++ " / "
            ++ py_bool pw_given)
      :: if found && negb pw_given
         then WorkerWrite password :: encrypt_poll prompt password rest true
         else encrypt_poll prompt password rest pw_given
  end.

(** Lines 143-147: the polling loop of the retried run. *)
Fixpoint retry_poll (password : bytes) (polls : list bytes)
  (pw_given : bool) : list event :=
  match polls with
  | [] => []
  | output :: rest =>
      Polled output
      :: if negb pw_given
         then WorkerWrite password :: retry_poll password rest true
         else retry_poll password rest pw_given
  end.

(** Lines 190-194 of [unlock] and 228-232 of [add_key]. *)
Fixpoint prompt_poll (prompt password : bytes) (polls : list bytes)
  (pw_given : bool) : list event :=
  match polls with
  | [] => []
  | output :: rest =>
      Polled output
      :: if contains prompt output && negb pw_given
         then WorkerWrite password :: prompt_poll prompt password rest true
         else prompt_poll prompt password rest pw_given
  end.

(** Lines 130-138: what busy recovery does for one child. *)
Definition release_child (c : child) : list event :=
  (match child_mountpoint c with
   | Some child_mountpoint =>
       if str_truthy child_mountpoint
       then [SysCommand ("umount -R " ++ child_mountpoint)]
       else []
   | None => []
   end)
  ++ [SysCommand ("cryptsetup close " ++ child_name c)].

(** [devinfo.get('children', [])] *)
Definition get_children (d : devinfo) : list child :=
  match children d with Some l => l | None => [] end.

Definition encrypt (partition : Partition.t)
  (password : option secret) (key_file : option string)
  (key_size : Z) (hash_type : string) (iter_time : Z) : M bool :=
  password <- resolve_credential password key_file ;;
  emit (Partprobe (Partition.path partition)) ;;
  emit (Sleep 1) ;;
  let cryptsetup_args :=
    cryptsetup_args (Partition.path partition) hash_type key_size iter_time in
  cryptworker <- SysCommandWorker cryptsetup_args ;;
  emit_all
    (encrypt_poll (passphrase_prompt partition) password
       (polls cryptworker) false) ;;
  if (exit_code cryptworker =? 256)%Z then
    emit (Unmount (Partition.path partition)) ;;
    emit (Partprobe (Partition.path partition)) ;;
    emit (SysCommand ("lsblk --fs -J " ++ Partition.path partition)) ;;
    h <- history ;;
    let devinfo := lsblk_fs env h in
    emit_all (flat_map release_child (get_children devinfo)) ;;
    cryptworker <- SysCommandWorker cryptsetup_args ;;
    emit_all (retry_poll password (polls cryptworker) false) ;;
    ret true
  else if (exit_code cryptworker >? 0)%Z then
    raise (DiskError "Could not encrypt")
  else
    ret true.

(** [encrypt] with the defaults of its signature. *)
Definition encrypt_default (partition : Partition.t)
  (password : option secret) (key_file : option string) : M bool :=
  encrypt partition password key_file 512 "sha512" 10000.

Definition unlock (partition : Partition.t) (mountpoint : string)
  (password : option secret) (key_file : option string)
  : M (option MapperDev.t) :=
  password <- resolve_credential password key_file ;;
  (* lines 184-185: the base name is computed and dropped *)
  let _ := if has_slash mountpoint then basename mountpoint else "" in
  cryptworker <-
    SysCommandWorker
      ("/usr/bin/cryptsetup open " ++ Partition.path partition ++ " "
       ++ mountpoint ++ " --type luks2") ;;
  emit_all
    (prompt_poll (passphrase_prompt partition) password
       (polls cryptworker) false) ;;
  if negb (exit_code cryptworker =? 0)%Z then
    raise (DiskError "Could not unlock")
  else
    h <- history ;;
    if islink env h ("/dev/mapper/" ++ mountpoint) then
      update_self (set_mapdev (Some {| MapperDev.mappername := mountpoint |})) ;;
      s <- get_self ;;
      ret (Self.mapdev s)
    else
      ret None.

Definition close (mountpoint : option string) : M bool :=
  s <- get_self ;;
  let mountpoint :=
    if negb (truthy str_truthy mountpoint) && negb (is_none (Self.mapdev s))
    then option_map MapperDev.path (Self.mapdev s)
    else mountpoint in
  match mountpoint with
  | Some m =>
      if str_truthy m then
        emit (SysCommand ("/usr/bin/cryptsetup close " ++ m)) ;;
        h <- history ;;
        ret (negb (islink env h m))
      else ret false
  | None => ret false
  end.

Definition format (path : string) : M unit :=
  emit (SysCommand ("/usr/bin/cryptsetup -q -v luksErase " ++ path)) ;;
  h <- history ;;
  if negb (command_exit_code env h =? 0)%Z
  then raise (DiskError "Could not format")
  else ret tt.

Definition add_key (path : string) (password : string) : M bool :=
  if negb (path_exists path) then
    raise (OSError 2 "Could not import key, file is missing.")
  else
    s <- get_self ;;
    worker <-
      SysCommandWorker
        ("/usr/bin/cryptsetup -q -v luksAddKey "
         ++ Partition.path (Self.partition s) ++ " " ++ path) ;;
    emit_all
      (prompt_poll (encode_utf8 "Enter any existing passphrase")
         (encode_utf8 password) (polls worker) false) ;;
    if negb (exit_code worker =? 0)%Z then
      raise (DiskError "Could not add encryption key")
    else
      ret true.

Definition newline : string := String (ascii_of_nat 10) EmptyString.

(** [installation] is read for its [target] only. *)
Definition crypttab (target key_path : string) (options : list string)
  : M unit :=
  s <- get_self ;;
  emit
    (Append (target ++ "/etc/crypttab")
       (Self.mountpoint s ++ " UUID="
        ++ convert_device_to_uuid env (Partition.path (Self.partition s))
        ++ " " ++ key_path ++ " " ++ String.concat "," options ++ newline)).

Definition enter_failure : exn :=
  AssertionError
    "luks2() requires either a `key_file` or a `password` parameter to operate.".

Definition __enter__ : M (option MapperDev.t) :=
  s <- get_self ;;
  if is_none (Self.password s)
     && (is_none (Self.key_file s)
         || negb (truthy path_exists (Self.key_file s)))
  then raise enter_failure
  else
    (if is_none (Self.password s) then
       contents <- read_key_file (Self.key_file s) ;;
       update_self (set_password (Some (SecretBytes contents)))
     else ret tt) ;;
    s <- get_self ;;
    match Self.password s with
    | Some (SecretStr text) =>
        update_self (set_password (Some (SecretBytes (encode_utf8 text))))
    | _ => ret tt
    end ;;
    s <- get_self ;;
    unlock (Self.partition s) (Self.mountpoint s) (Self.password s) None.

(** [exc] is [args[1]] when the [with] block raised. *)
Definition __exit__ (exc : option exn) : M bool :=
  s <- get_self ;;
  (if Self.auto_unmount s then close None else ret false) ;;
  match exc with
  | Some e => raise e
  | None => ret true
  end.

End Methods.

(** ** Reading traces *)

(** The number of [worker.write] calls before the next process is spawned. *)
Fixpoint count_writes (evs : list event) : nat :=
  match evs with
  | [] => 0
  | WorkerWrite _ :: rest => S (count_writes rest)
  | Spawn _ :: _ => 0
  | _ :: rest => count_writes rest
  end.

(** For each spawned process, in order, how often it was written to. *)
Fixpoint writes_per_worker (evs : list event) : list nat :=
  match evs with
  | [] => []
  | Spawn _ :: rest => count_writes rest :: writes_per_worker rest
  | _ :: rest => writes_per_worker rest
  end.

(** Every write to a process comes after a poll of that same process whose
    collected output held [prompt]. *)
Fixpoint writes_follow_prompt (prompt : bytes) (seen : bool)
  (evs : list event) : bool :=
  match evs with
  | [] => true
  | Spawn _ :: rest => writes_follow_prompt prompt false rest
  | Polled output :: rest =>
      writes_follow_prompt prompt (seen || contains prompt output) rest
  | WorkerWrite _ :: rest => seen && writes_follow_prompt prompt seen rest
  | _ :: rest => writes_follow_prompt prompt seen rest
  end.

(** The command lines handed to [SysCommand], in order. *)
Fixpoint commands (evs : list event) : list string :=
  match evs with
  | [] => []
  | SysCommand cmd :: rest => cmd :: commands rest
  | _ :: rest => commands rest
  end.

(** The command lines handed to [SysCommandWorker], in order. *)
Fixpoint spawned (evs : list event) : list string :=
  match evs with
  | [] => []
  | Spawn cmd :: rest => cmd :: spawned rest
  | _ :: rest => spawned rest
  end.

(** ** A scripted outside world, for running the methods on examples *)

Fixpoint lookup_file (files : list (string * bytes)) (f : string)
  : option bytes :=
  match files with
  | [] => None
  | (name, contents) :: rest =>
      if String.eqb name f then Some contents else lookup_file rest f
  end.

(** The [n]-th spawned process follows the [n]-th script. *)
Definition scripted (files : list (string * bytes)) (runs : list run)
  (info : devinfo) (links : list event -> string -> bool) : environment :=
  {| read_file := lookup_file files;
     worker := fun h =>
       nth (length (spawned h) - 1) runs {| polls := []; exit_code := 0 |};
     command_exit_code := fun _ => 0%Z;
     lsblk_fs := fun _ => info;
     islink := links;
     convert_device_to_uuid := fun _ => "0000-0000" |}.

(** [/dev/mapper/<name>] is a link once [cryptsetup open] was spawned for
    [name] on [partition] and until a [cryptsetup close] names that path. *)
Definition mapper_links (partition : Partition.t) (name : string)
  (h : list event) (p : string) : bool :=
  String.eqb p ("/dev/mapper/" ++ name)
  && existsb
       (String.eqb
          ("/usr/bin/cryptsetup open " ++ Partition.path partition ++ " "
           ++ name ++ " --type luks2"))
       (spawned h)
  && negb
       (existsb (String.eqb ("/usr/bin/cryptsetup close /dev/mapper/" ++ name))
          (commands h)).

Definition sda1 : Partition.t := {| Partition.path := "/dev/sda1" |}.

Definition fresh (s : luks2) : state := {| self := s; trace := [] |}.

Definition hunter2 : secret := SecretStr "hunter2".

Definition prompt_sda1 : bytes := encode_utf8 "Enter passphrase for /dev/sda1: ".

(** ** Derived notions used in the statements *)

Definition is_spawn (e : event) : bool :=
  match e with Spawn _ => true | _ => false end.

(** [f'/usr/bin/cryptsetup open {partition.path} {mountpoint} --type luks2'] *)
Definition open_command (partition : Partition.t) (mountpoint : string)
  : string :=
  "/usr/bin/cryptsetup open " ++ Partition.path partition ++ " "
  ++ mountpoint ++ " --type luks2".

(** What [unlock] adds to the trace once the credential is resolved. *)
Definition unlock_events (env : environment) (partition : Partition.t)
  (mountpoint : string) (credential : bytes) (tr : list event)
  : list event :=
  Spawn (open_command partition mountpoint)
  :: prompt_poll (passphrase_prompt partition) credential
       (polls (worker env (tr ++ [Spawn (open_command partition mountpoint)])))
       false.

(** The events of busy recovery up to and including the retried run. *)
Definition recovery_events (env : environment) (partition : Partition.t)
  (args : string) (credential : bytes) (tr : list event) : list event :=
  let probe :=
    [Unmount (Partition.path partition);
     Partprobe (Partition.path partition);
     SysCommand ("lsblk --fs -J " ++ Partition.path partition)] in
  let released :=
    flat_map release_child (get_children (lsblk_fs env (tr ++ probe))) in
  let respawn := probe ++ released ++ [Spawn args] in
  respawn ++ retry_poll credential (polls (worker env (tr ++ respawn))) false.

(** What [encrypt] adds to the trace up to the end of the first run. *)
Definition first_run_events (env : environment) (partition : Partition.t)
  (args : string) (credential : bytes) (tr : list event) : list event :=
  let start :=
    [Partprobe (Partition.path partition); Sleep 1; Spawn args] in
  start
  ++ encrypt_poll (passphrase_prompt partition) credential
       (polls (worker env (tr ++ start))) false.

(** A device that is busy on the first run; the retried run shows the
    prompt and exits with [rc]. *)
Definition busy_then (rc : Z) : environment :=
  scripted []
    [ {| polls := [prompt_sda1]; exit_code := 256 |};
      {| polls := [prompt_sda1]; exit_code := rc |} ]
    {| children := None |}
    (fun _ _ => false).

Definition luksdev_session : state :=
  fresh (init sda1 "luksdev" (Some hunter2) None false).

(** Whatever is written to a process is [credential]. *)
Definition writes_are (credential : bytes) (evs : list event) : Prop :=
  forall data, In (WorkerWrite data) evs -> data = credential.

(** Every spawned process was written to at most once. *)
Definition latched (evs : list event) : Prop :=
  Forall (fun n => n <= 1) (writes_per_worker evs).

(** The events after the last spawned process. *)
Fixpoint after_last_spawn (evs : list event) : list event :=
  match evs with
  | [] => []
  | Spawn _ :: rest =>
      if existsb is_spawn rest then after_last_spawn rest else rest
  | _ :: rest => after_last_spawn rest
  end.

(** Busy on the first run; the retried run never prints anything. *)
Definition silent_retry : environment :=
  scripted []
    [ {| polls := [prompt_sda1]; exit_code := 256 |};
      {| polls := [[]; []]; exit_code := 0 |} ]
    {| children := None |}
    (fun _ _ => false).

(** [cryptsetup open] succeeds at once and the mapping shows up. *)
Definition opens (name : string) : environment :=
  scripted []
    [ {| polls := [prompt_sda1]; exit_code := 0 |} ]
    {| children := None |}
    (mapper_links sda1 name).

Definition unlocked_luksdev : state :=
  snd (unlock (opens "luksdev") sda1 "luksdev" None None luksdev_session).

(** An instance whose password is the empty string and whose key file does
    not exist. *)
Definition no_files : environment :=
  scripted []
    [ {| polls := [prompt_sda1]; exit_code := 0 |} ]
    {| children := None |}
    (mapper_links sda1 "luksdev").


(** A key file that ends in CR LF, and nothing else to go by. *)
Definition with_key_file : environment :=
  scripted [("/root/luks.key", encode_utf8 "s3cret" ++ [x0d; x0a])]
    [ {| polls := [prompt_sda1]; exit_code := 0 |} ]
    {| children := None |}
    (mapper_links sda1 "luksdev").

Definition key_file_session : state :=
  fresh (init sda1 "luksdev" None (Some "/root/luks.key") false).

(** What [close] does once it has a path [m] to close. *)
Definition close_issued (env : environment) (m : string) (st : state)
  : outcome bool * state :=
  let tr := trace st ++ [SysCommand ("/usr/bin/cryptsetup close " ++ m)] in
  (Returns (negb (islink env tr m)), {| self := self st; trace := tr |}).

(** [/dev/sda1] is busy; [lsblk] lists a child without a mountpoint and a
    mounted one. *)
Definition busy_with_children : environment :=
  scripted []
    [ {| polls := [prompt_sda1]; exit_code := 256 |};
      {| polls := [prompt_sda1]; exit_code := 0 |} ]
    {| children :=
         Some [ {| child_name := "sda1p1"; child_mountpoint := None |};
                {| child_name := "cryptroot";
                   child_mountpoint := Some "/mnt" |} ] |}
    (fun _ _ => false).

(** The commands for one child, said the way the spec's section 4.2 does:
    unmount it if it has a mountpoint, close it in any case. *)
Definition child_commands (c : child) : list string :=
  (if truthy str_truthy (child_mountpoint c)
   then match child_mountpoint c with
        | Some m => [("umount -R " ++ m)%string]
        | None => []
        end
   else [])
  ++ [("cryptsetup close " ++ child_name c)%string].

(** ** Further notions: the runs of [encrypt] *)

(** The process [encrypt] starts first, at trace [tr]. *)
Definition first_run (env : environment) (partition : Partition.t)
  (args : string) (tr : list event) : run :=
  worker env
    (tr ++ [Partprobe (Partition.path partition); Sleep 1; Spawn args]).

(** The process [encrypt] starts after busy recovery, [tr1] being the trace
    at the end of the first run. *)
Definition retried_run (env : environment) (partition : Partition.t)
  (args : string) (tr1 : list event) : run :=
  let probe :=
    [Unmount (Partition.path partition);
     Partprobe (Partition.path partition);
     SysCommand ("lsblk --fs -J " ++ Partition.path partition)] in
  worker env
    (tr1 ++ probe
     ++ flat_map release_child (get_children (lsblk_fs env (tr1 ++ probe)))
     ++ [Spawn args]).

(** [cryptsetup] prints the prompt, is alive for one poll and exits with
    [rc]; no mapping ever shows up. *)
Definition exits_with (rc : Z) : environment :=
  scripted []
    [ {| polls := [prompt_sda1]; exit_code := rc |} ]
    {| children := None |}
    (fun _ _ => false).

(** A key file to add, and the passphrase that is already set. *)
Definition adds_key : environment :=
  scripted [("/root/new.key", encode_utf8 "k3y")]
    [ {| polls := [encode_utf8 "Enter any existing passphrase: "];
         exit_code := 0 |} ]
    {| children := None |}
    (fun _ _ => false).

(** A session that closes its mapping when the [with] block is left. *)
Definition auto_unmount_session : state :=
  fresh (init sda1 "luksdev" (Some hunter2) None true).

(** Any character but the line feed. *)
Definition not_newline (c : ascii) : bool :=
  negb (Ascii.eqb c (ascii_of_nat 10)).

(** * Properties *)

(** ** Bytes *)

Lemma rstrip_crlf_cons (b : byte) (l : bytes) :
  rstrip_crlf (b :: l) =
  match rstrip_crlf l with
  | [] => if is_crlf b then [] else [b]
  | x :: r => b :: x :: r
  end.
Proof.
  unfold rstrip_crlf. simpl.
  destruct (fold_right _ [] l); reflexivity.
Qed.



(** ** Traces *)

Lemma skipn_length_app {A} (l r : list A) : skipn (length l) (l ++ r) = r.
Proof. induction l; simpl; auto. Qed.

Lemma new_events_app (s : luks2) (s' : luks2) (tr evs : list event) :
  new_events {| self := s; trace := tr |} {| self := s'; trace := tr ++ evs |}
  = evs.
Proof. unfold new_events. simpl. apply skipn_length_app. Qed.

Lemma count_writes_app (l r : list event) :
  forallb (fun e => negb (is_spawn e)) l = true ->
  count_writes (l ++ r) = count_writes l + count_writes r.
Proof.
  induction l as [|e l IH]; simpl; intros H; [reflexivity|].
  apply andb_true_iff in H. destruct H as [He Hl].
  destruct e; simpl in *; try discriminate; rewrite (IH Hl); reflexivity.
Qed.

Lemma writes_per_worker_app (l r : list event) :
  forallb (fun e => negb (is_spawn e)) l = true ->
  writes_per_worker (l ++ r) = writes_per_worker r.
Proof.
  induction l as [|e l IH]; simpl; intros H; [reflexivity|].
  apply andb_true_iff in H. destruct H as [He Hl].
  destruct e; simpl in *; try discriminate; exact (IH Hl).
Qed.

Lemma commands_app (l r : list event) :
  commands (l ++ r) = commands l ++ commands r.
Proof.
  induction l as [|e l IH]; simpl; [reflexivity|].
  destruct e; simpl; rewrite ?IH; reflexivity.
Qed.

Lemma spawned_app (l r : list event) :
  spawned (l ++ r) = spawned l ++ spawned r.
Proof.
  induction l as [|e l IH]; simpl; [reflexivity|].
  destruct e; simpl; rewrite ?IH; reflexivity.
Qed.

(** ** The polling loops *)

Section Loops.

Variables prompt password : bytes.

Lemma encrypt_poll_no_spawn (polls : list bytes) (g : bool) :
  forallb (fun e => negb (is_spawn e))
    (encrypt_poll prompt password polls g) = true.
Proof.
  revert g. induction polls as [|o r IH]; intros g; simpl; [reflexivity|].
  destruct (contains prompt o && negb g); simpl; apply IH.
Qed.

Lemma retry_poll_no_spawn (polls : list bytes) (g : bool) :
  forallb (fun e => negb (is_spawn e)) (retry_poll password polls g) = true.
Proof.
  revert g. induction polls as [|o r IH]; intros g; simpl; [reflexivity|].
  destruct (negb g); simpl; apply IH.
Qed.

Lemma prompt_poll_no_spawn (polls : list bytes) (g : bool) :
  forallb (fun e => negb (is_spawn e))
    (prompt_poll prompt password polls g) = true.
Proof.
  revert g. induction polls as [|o r IH]; intros g; simpl; [reflexivity|].
  destruct (contains prompt o && negb g); simpl; apply IH.
Qed.

(** Once the latch is set a loop writes nothing more; before that it writes
    at most once. *)
Lemma encrypt_poll_latch (polls : list bytes) (g : bool) :
  count_writes (encrypt_poll prompt password polls g)
  <= if g then 0 else 1.
Proof.
  revert g. induction polls as [|o r IH]; intros g; simpl.
  - destruct g; lia.
  - destruct g; rewrite ?andb_false_r; simpl.
    + apply (IH true).
    + destruct (contains prompt o); simpl.
      * specialize (IH true). simpl in IH. lia.
      * apply (IH false).
Qed.

Lemma retry_poll_latch (polls : list bytes) (g : bool) :
  count_writes (retry_poll password polls g) <= if g then 0 else 1.
Proof.
  revert g. induction polls as [|o r IH]; intros g; simpl.
  - destruct g; lia.
  - destruct g; simpl.
    + apply (IH true).
    + specialize (IH true). simpl in IH. lia.
Qed.

Lemma prompt_poll_latch (polls : list bytes) (g : bool) :
  count_writes (prompt_poll prompt password polls g) <= if g then 0 else 1.
Proof.
  revert g. induction polls as [|o r IH]; intros g; simpl.
  - destruct g; lia.
  - destruct g; rewrite ?andb_false_r; simpl.
    + apply (IH true).
    + destruct (contains prompt o); simpl.
      * specialize (IH true). simpl in IH. lia.
      * apply (IH false).
Qed.

(** A prompt that stays in the output on every poll is answered exactly
    once. *)
Lemma prompt_poll_once (polls : list bytes) :
  polls <> [] ->
  forallb (contains prompt) polls = true ->
  count_writes (prompt_poll prompt password polls false) = 1.
Proof.
  destruct polls as [|o r]; [congruence|]. intros _ H. simpl in H.
  apply andb_true_iff in H. destruct H as [Ho _].
  simpl. rewrite Ho. simpl.
  pose proof (prompt_poll_latch r true) as L. simpl in L. lia.
Qed.

(** The loops of [encrypt]'s first run, [unlock] and [add_key] write only
    once the prompt has been seen. *)
Lemma encrypt_poll_follows_prompt (polls : list bytes) (seen g : bool) :
  writes_follow_prompt prompt seen (encrypt_poll prompt password polls g)
  = true.
Proof.
  revert seen g. induction polls as [|o r IH]; intros seen g; simpl;
    [reflexivity|].
  destruct (contains prompt o) eqn:Ho; simpl.
  - destruct g; simpl; rewrite ?orb_true_r; simpl; apply IH.
  - apply IH.
Qed.

Lemma prompt_poll_follows_prompt (polls : list bytes) (seen g : bool) :
  writes_follow_prompt prompt seen (prompt_poll prompt password polls g)
  = true.
Proof.
  revert seen g. induction polls as [|o r IH]; intros seen g; simpl;
    [reflexivity|].
  destruct (contains prompt o) eqn:Ho; simpl.
  - destruct g; simpl; rewrite ?orb_true_r; simpl; apply IH.
  - apply IH.
Qed.

End Loops.

(** ** The methods, unfolded *)

Ltac run_M :=
  unfold bind, ret, raise, emit, emit_all, get_self, update_self, history,
    SysCommandWorker, read_key_file in *;
  simpl in *.

Section MethodFacts.

Variable env : environment.

(** Resolving the credential reads the instance and the key file and does
    nothing else. *)
Lemma resolve_credential_state
  (password : option secret) (key_file : option string) (st : state) :
  snd (resolve_credential env password key_file st) = st.
Proof.
  unfold resolve_credential. run_M.
  destruct (negb _); [reflexivity|].
  destruct (is_none _ && _); [reflexivity|].
  destruct (or_else secret_truthy password _); [reflexivity|].
  destruct (or_else str_truthy key_file _) as [f|]; [|reflexivity].
  destruct (read_file env f); reflexivity.
Qed.

Lemma resolve_credential_eq
  (password : option secret) (key_file : option string) (st : state) :
  resolve_credential env password key_file st
  = (fst (resolve_credential env password key_file st), st).
Proof.
  rewrite <- (resolve_credential_state password key_file st) at 3.
  apply surjective_pairing.
Qed.

Lemma unlock_unresolved (partition : Partition.t) (mountpoint : string)
  (password : option secret) (key_file : option string) (st : state)
  (e : exn) :
  fst (resolve_credential env password key_file st) = Raises e ->
  unlock env partition mountpoint password key_file st = (Raises e, st).
Proof.
  intros H. unfold unlock, bind at 1.
  rewrite resolve_credential_eq, H. reflexivity.
Qed.

Lemma unlock_resolved (partition : Partition.t) (mountpoint : string)
  (password : option secret) (key_file : option string) (st : state)
  (credential : bytes) :
  fst (resolve_credential env password key_file st) = Returns credential ->
  unlock env partition mountpoint password key_file st =
  let r := worker env (trace st ++ [Spawn (open_command partition mountpoint)]) in
  let tr :=
    trace st ++ unlock_events env partition mountpoint credential (trace st) in
  let dev := {| MapperDev.mappername := mountpoint |} in
  if negb (exit_code r =? 0)%Z then
    (Raises (DiskError "Could not unlock"), {| self := self st; trace := tr |})
  else if islink env tr ("/dev/mapper/" ++ mountpoint) then
    (Returns (Some dev),
     {| self := set_mapdev (Some dev) (self st); trace := tr |})
  else
    (Returns None, {| self := self st; trace := tr |}).
Proof.
  intros H. unfold unlock, bind at 1.
  rewrite resolve_credential_eq, H.
  unfold unlock_events, open_command. run_M.
  rewrite <- !app_assoc. simpl.
  destruct (negb _); [reflexivity|].
  destruct (islink env _ _); reflexivity.
Qed.

Lemma encrypt_unresolved (partition : Partition.t)
  (password : option secret) (key_file : option string)
  (key_size : Z) (hash_type : string) (iter_time : Z) (st : state) (e : exn) :
  fst (resolve_credential env password key_file st) = Raises e ->
  encrypt env partition password key_file key_size hash_type iter_time st
  = (Raises e, st).
Proof.
  intros H. unfold encrypt, bind at 1.
  rewrite resolve_credential_eq, H. reflexivity.
Qed.

Lemma encrypt_resolved (partition : Partition.t)
  (password : option secret) (key_file : option string)
  (key_size : Z) (hash_type : string) (iter_time : Z) (st : state)
  (credential : bytes) :
  fst (resolve_credential env password key_file st) = Returns credential ->
  encrypt env partition password key_file key_size hash_type iter_time st =
  let args :=
    cryptsetup_args (Partition.path partition) hash_type key_size iter_time in
  let r :=
    worker env
      (trace st ++ [Partprobe (Partition.path partition); Sleep 1; Spawn args]) in
  let tr1 :=
    trace st ++ first_run_events env partition args credential (trace st) in
  if (exit_code r =? 256)%Z then
    (Returns true,
     {| self := self st;
        trace := tr1 ++ recovery_events env partition args credential tr1 |})
  else if (exit_code r >? 0)%Z then
    (Raises (DiskError "Could not encrypt"), {| self := self st; trace := tr1 |})
  else
    (Returns true, {| self := self st; trace := tr1 |}).
Proof.
  intros H. unfold encrypt, bind at 1.
  rewrite resolve_credential_eq, H.
  unfold first_run_events, recovery_events. run_M.
  rewrite <- !app_assoc. simpl.
  destruct (exit_code _ =? 256)%Z.
  - rewrite <- !app_assoc. simpl. rewrite <- !app_assoc. simpl.
    reflexivity.
  - destruct (exit_code _ >? 0)%Z; reflexivity.
Qed.

End MethodFacts.

(** ** C1: the exit code of the retried run *)

Section BusyRecovery.

Variable env : environment.

(** Once the first run has exited with 256, [encrypt] returns [True]
    whatever the retried run does: nothing reads its exit code. *)
Lemma encrypt_busy_returns_true (partition : Partition.t)
  (password : option secret) (key_file : option string)
  (key_size : Z) (hash_type : string) (iter_time : Z) (st : state)
  (credential : bytes) :
  fst (resolve_credential env password key_file st) = Returns credential ->
  exit_code
    (worker env
       (trace st
        ++ [Partprobe (Partition.path partition); Sleep 1;
            Spawn (cryptsetup_args (Partition.path partition) hash_type
                     key_size iter_time)])) = 256%Z ->
  fst (encrypt env partition password key_file key_size hash_type iter_time st)
  = Returns true.
Proof.
  intros Hres Hbusy.
  rewrite (encrypt_resolved env _ _ _ _ _ _ _ _ Hres). simpl.
  rewrite Hbusy. reflexivity.
Qed.

End BusyRecovery.

(** C1 (the code departs from the claim).  The claim: when the first run
    exits with 256 and the retried run exits non-zero too, [encrypt] fails
    with a disk error.  The code: with a first run that exits with 256,
    [encrypt] spawns [cryptsetup] exactly twice and returns [True] for every
    exit code [rc] of the retried run, 256 and 1 included. *)
Theorem C1_retry_exit_code_is_ignored (rc : Z) :
  let out := encrypt_default (busy_then rc) sda1 None None luksdev_session in
  fst out = Returns true
  /\ length (spawned (trace (snd out))) = 2
  /\ exit_code (worker (busy_then rc) (trace (snd out))) = rc.
Proof.
  cbv zeta. repeat split.
Qed.

(** ** C2: the one-shot latch *)

Lemma writes_per_worker_no_spawn (l : list event) :
  forallb (fun e => negb (is_spawn e)) l = true -> writes_per_worker l = [].
Proof.
  intros H. rewrite <- (app_nil_r l). now rewrite writes_per_worker_app.
Qed.

(** A process and its polling loop, followed by events that write to no
    process before the next one is spawned. *)
Lemma latched_worker (cmd : string) (loop rest : list event) :
  forallb (fun e => negb (is_spawn e)) loop = true ->
  count_writes loop <= 1 ->
  count_writes rest = 0 ->
  latched rest ->
  latched (Spawn cmd :: loop ++ rest).
Proof.
  intros Hloop Hone Hzero Hrest. unfold latched. simpl.
  rewrite count_writes_app, writes_per_worker_app by exact Hloop.
  constructor; [lia|exact Hrest].
Qed.

Lemma release_child_quiet (cs : list child) :
  forallb (fun e => negb (is_spawn e)) (flat_map release_child cs) = true
  /\ count_writes (flat_map release_child cs) = 0.
Proof.
  induction cs as [|c cs [IHs IHw]]; [split; reflexivity|].
  simpl. rewrite forallb_app, IHs, andb_true_r.
  unfold release_child.
  destruct (child_mountpoint c) as [m|]; [destruct (str_truthy m)|];
    simpl; split; auto.
Qed.

Section Latch.

Variable env : environment.

Lemma first_run_latched (partition : Partition.t) (args : string)
  (credential : bytes) (tr rest : list event) :
  count_writes rest = 0 ->
  latched rest ->
  latched (first_run_events env partition args credential tr ++ rest).
Proof.
  intros Hzero Hrest. unfold first_run_events. cbv zeta.
  rewrite <- app_assoc.
  exact (latched_worker args _ rest
           (encrypt_poll_no_spawn _ _ _ _)
           (encrypt_poll_latch _ _ _ false) Hzero Hrest).
Qed.

Lemma recovery_latched (partition : Partition.t) (args : string)
  (credential : bytes) (tr : list event) :
  count_writes (recovery_events env partition args credential tr) = 0
  /\ latched (recovery_events env partition args credential tr).
Proof.
  unfold recovery_events. cbv zeta.
  set (released := flat_map release_child _).
  destruct (release_child_quiet
              (get_children
                 (lsblk_fs env
                    (tr ++ [Unmount (Partition.path partition);
                            Partprobe (Partition.path partition);
                            SysCommand
                              ("lsblk --fs -J " ++ Partition.path partition)]))))
    as [Hs Hw].
  fold released in Hs, Hw.
  set (loop := retry_poll _ _ _).
  rewrite <- !app_assoc. simpl.
  rewrite count_writes_app, Hw by exact Hs.
  split; [reflexivity|].
  unfold latched. simpl. rewrite writes_per_worker_app by exact Hs.
  rewrite <- (app_nil_r loop).
  refine (latched_worker args loop [] (retry_poll_no_spawn _ _ _)
            (retry_poll_latch _ _ false) eq_refl _).
  constructor.
Qed.

End Latch.

(** C2.  Whatever the spawned processes print and however long they run,
    each process started by [encrypt] (first run and retried run alike),
    [unlock] and [add_key] is written to at most once. *)
Theorem C2_credential_written_at_most_once (env : environment)
  (partition : Partition.t) (mountpoint : string)
  (password : option secret) (key_file : option string)
  (key_size : Z) (hash_type : string) (iter_time : Z)
  (key_path new_password : string) (st : state) :
  latched
    (new_events st
       (snd (encrypt env partition password key_file key_size hash_type
               iter_time st)))
  /\ latched
       (new_events st
          (snd (unlock env partition mountpoint password key_file st)))
  /\ latched (new_events st (snd (add_key env key_path new_password st))).
Proof.
  assert (Hnil : new_events st st = []) by apply skipn_all.
  assert (Hend : latched []) by constructor.
  destruct st as [s tr]. repeat split.
  - destruct (fst (resolve_credential env password key_file
                     {| self := s; trace := tr |})) as [cred|e] eqn:Hres.
    + rewrite (encrypt_resolved env _ _ _ _ _ _ _ _ Hres). cbv zeta.
      destruct (exit_code _ =? 256)%Z; [|destruct (exit_code _ >? 0)%Z];
        simpl trace; rewrite <- ?app_assoc; simpl snd;
        rewrite new_events_app.
      * apply first_run_latched; apply recovery_latched.
      * rewrite <- (app_nil_r (first_run_events _ _ _ _ _)).
        now apply first_run_latched.
      * rewrite <- (app_nil_r (first_run_events _ _ _ _ _)).
        now apply first_run_latched.
    + rewrite (encrypt_unresolved env _ _ _ _ _ _ _ _ Hres).
      simpl snd. now rewrite Hnil.
  - destruct (fst (resolve_credential env password key_file
                     {| self := s; trace := tr |})) as [cred|e] eqn:Hres.
    + rewrite (unlock_resolved env _ _ _ _ _ _ Hres). cbv zeta.
      assert (Hone : latched (unlock_events env partition mountpoint cred tr)).
      { unfold unlock_events. rewrite <- (app_nil_r (prompt_poll _ _ _ _)).
        apply latched_worker; auto using prompt_poll_no_spawn.
        apply (prompt_poll_latch _ _ _ false). }
      destruct (negb _); [|destruct (islink env _ _)]; simpl snd;
        simpl trace; rewrite new_events_app; exact Hone.
    + rewrite (unlock_unresolved env _ _ _ _ _ _ Hres).
      simpl snd. now rewrite Hnil.
  - unfold add_key.
    destruct (negb (path_exists env key_path)).
    + unfold raise. simpl snd. now rewrite Hnil.
    + run_M. rewrite <- !app_assoc. simpl.
      set (loop := prompt_poll _ _ _ _).
      assert (Hone : latched (Spawn
                   ("/usr/bin/cryptsetup -q -v luksAddKey "
                    ++ Partition.path (Self.partition s) ++ " " ++ key_path)
                   :: loop)).
      { rewrite <- (app_nil_r loop). subst loop.
        apply latched_worker; auto using prompt_poll_no_spawn.
        apply (prompt_poll_latch _ _ _ false). }
      destruct (negb _); simpl snd; rewrite new_events_app; exact Hone.
Qed.

(** ** C3: the retried run does not wait for the prompt *)

(** The retried loop answers on its first iteration, prompt or no prompt. *)
Lemma retry_poll_writes_first (prompt password output : bytes)
  (rest : list bytes) :
  contains prompt output = false ->
  retry_poll password (output :: rest) false
  = Polled output :: WorkerWrite password :: retry_poll password rest true
  /\ writes_follow_prompt prompt false
       (retry_poll password (output :: rest) false) = false.
Proof.
  intros H. split; [reflexivity|]. simpl. now rewrite H.
Qed.

(** [unlock], and [encrypt] when the device is not busy, write only after
    the prompt was seen. *)
Lemma unlock_follows_prompt (env : environment) (partition : Partition.t)
  (mountpoint : string) (password : option secret) (key_file : option string)
  (st : state) :
  writes_follow_prompt (passphrase_prompt partition) false
    (new_events st (snd (unlock env partition mountpoint password key_file st)))
  = true.
Proof.
  destruct (fst (resolve_credential env password key_file st))
    as [cred|e] eqn:Hres.
  - rewrite (unlock_resolved env _ _ _ _ _ _ Hres). cbv zeta.
    destruct st as [s tr].
    destruct (negb _); [|destruct (islink env _ _)]; simpl snd; simpl trace;
      rewrite new_events_app; apply prompt_poll_follows_prompt.
  - rewrite (unlock_unresolved env _ _ _ _ _ _ Hres). simpl snd.
    unfold new_events. now rewrite skipn_all.
Qed.

Lemma encrypt_first_run_follows_prompt (env : environment)
  (partition : Partition.t) (password : option secret)
  (key_file : option string) (key_size : Z) (hash_type : string)
  (iter_time : Z) (st : state) (credential : bytes) :
  fst (resolve_credential env password key_file st) = Returns credential ->
  exit_code
    (worker env
       (trace st
        ++ [Partprobe (Partition.path partition); Sleep 1;
            Spawn (cryptsetup_args (Partition.path partition) hash_type
                     key_size iter_time)])) <> 256%Z ->
  writes_follow_prompt (passphrase_prompt partition) false
    (new_events st
       (snd (encrypt env partition password key_file key_size hash_type
               iter_time st)))
  = true.
Proof.
  intros Hres Hcode.
  rewrite (encrypt_resolved env _ _ _ _ _ _ _ _ Hres). cbv zeta.
  apply Z.eqb_neq in Hcode. rewrite Hcode.
  destruct st as [s tr].
  destruct (exit_code _ >? 0)%Z; simpl snd; simpl trace;
    rewrite new_events_app; apply encrypt_poll_follows_prompt.
Qed.

(** C3 (the code departs from the claim).  The claim: the retried run gets
    the credential only after [Enter passphrase for <device path>] showed
    up in its output, as the first run does.  The code: on a retried run
    whose output stays empty, the credential is written at the first
    iteration of the loop, so the trace of [encrypt] has a write that no
    sighting of the prompt precedes. *)
Theorem C3_retry_writes_without_prompt :
  let out := encrypt_default silent_retry sda1 None None luksdev_session in
  fst out = Returns true
  /\ after_last_spawn (trace (snd out))
     = [Polled []; WorkerWrite (encode_utf8 "hunter2"); Polled []]
  /\ writes_follow_prompt (passphrase_prompt sda1) false (trace (snd out))
     = false.
Proof.
  cbv zeta. repeat split.
Qed.

(** ** C4: the mapping name in [unlock] *)

Lemma spawned_no_spawn (l : list event) :
  forallb (fun e => negb (is_spawn e)) l = true -> spawned l = [].
Proof.
  induction l as [|e l IH]; simpl; intros H; [reflexivity|].
  apply andb_true_iff in H. destruct H as [He Hl].
  destruct e; simpl in *; try discriminate; exact (IH Hl).
Qed.

(** The one process [unlock] starts is given [mountpoint] as it came in. *)
Lemma unlock_spawns_given_name (env : environment) (partition : Partition.t)
  (mountpoint : string) (password : option secret) (key_file : option string)
  (st : state) (credential : bytes) :
  fst (resolve_credential env password key_file st) = Returns credential ->
  spawned
    (new_events st (snd (unlock env partition mountpoint password key_file st)))
  = [open_command partition mountpoint].
Proof.
  intros Hres. rewrite (unlock_resolved env _ _ _ _ _ _ Hres). cbv zeta.
  destruct st as [s tr].
  destruct (negb _); [|destruct (islink env _ _)]; simpl snd; simpl trace;
    rewrite new_events_app; unfold unlock_events; simpl;
    now rewrite spawned_no_spawn by apply prompt_poll_no_spawn.
Qed.

(** C4 (the code departs from the claim).  The claim: a mapping name with a
    path separator is sanitized, or the call rejected, before the command
    is built.  The code: [unlock] with the name [luks/dev] runs
    [cryptsetup open] on [luks/dev], not on its base name [dev], tests
    [/dev/mapper/luks/dev] and records a [MapperDev] of that name. *)
Theorem C4_unlock_keeps_path_separator :
  let out := unlock (opens "luks/dev") sda1 "luks/dev" None None
               luksdev_session in
  has_slash "luks/dev" = true
  /\ basename "luks/dev" = "dev"
  /\ spawned (trace (snd out))
     = ["/usr/bin/cryptsetup open /dev/sda1 luks/dev --type luks2"]
  /\ fst out = Returns (Some {| MapperDev.mappername := "luks/dev" |})
  /\ option_map MapperDev.path (Self.mapdev (self (snd out)))
     = Some "/dev/mapper/luks/dev".
Proof.
  cbv zeta. repeat split.
Qed.

(** ** C5: [close] and the recorded mapping *)

(** C5, as stated, fails: after [unlock] recorded the mapping, [close()]
    issues the close command and returns [True], yet [mapdev] still holds
    the mapping; a second [close()] issues the same command again instead
    of returning [False]. *)
Lemma C5_counterexample :
  let env := opens "luksdev" in
  let dev := {| MapperDev.mappername := "luksdev" |} in
  let first := close env None unlocked_luksdev in
  let second := close env None (snd first) in
  Self.mapdev (self unlocked_luksdev) = Some dev
  /\ fst first = Returns true
  /\ commands (new_events unlocked_luksdev (snd first))
     = ["/usr/bin/cryptsetup close /dev/mapper/luksdev"]
  /\ Self.mapdev (self (snd first)) = Some dev
  /\ commands (new_events (snd first) (snd second))
     = ["/usr/bin/cryptsetup close /dev/mapper/luksdev"]
  /\ fst second <> Returns false.
Proof.
  cbv zeta. repeat split. discriminate.
Qed.

Lemma close_keeps_self (env : environment) (mountpoint : option string)
  (st : state) :
  self (snd (close env mountpoint st)) = self st.
Proof.
  unfold close. run_M.
  destruct (negb (truthy str_truthy mountpoint) && _);
    [destruct (option_map _ _) as [m|]|destruct mountpoint as [m|]];
    try reflexivity; destruct (str_truthy m); reflexivity.
Qed.

(** C5, amended.  [close] leaves every stored attribute as it was, [mapdev]
    included; so with a mapping on record, a [close] is followed by a
    [close()] that issues the close command for the recorded path once
    more. *)
Theorem C5_close_keeps_mapdev (env : environment)
  (mountpoint : option string) (st : state) (dev : MapperDev.t) :
  Self.mapdev (self st) = Some dev ->
  let st1 := snd (close env mountpoint st) in
  self st1 = self st
  /\ Self.mapdev (self st1) = Some dev
  /\ commands (new_events st1 (snd (close env None st1)))
     = [("/usr/bin/cryptsetup close " ++ MapperDev.path dev)%string].
Proof.
  intros Hdev st1.
  assert (Hself : self st1 = self st) by apply close_keeps_self.
  split; [exact Hself|]. split; [now rewrite Hself|].
  destruct st1 as [s1 tr1]. simpl in Hself. subst s1.
  unfold close. run_M. rewrite Hdev. simpl.
  rewrite new_events_app. reflexivity.
Qed.

Lemma C5_close_keeps_mapdev_witness :
  let st1 := snd (close (opens "luksdev") None unlocked_luksdev) in
  self st1 = self unlocked_luksdev
  /\ Self.mapdev (self st1) = Some {| MapperDev.mappername := "luksdev" |}
  /\ commands (new_events st1 (snd (close (opens "luksdev") None st1)))
     = ["/usr/bin/cryptsetup close /dev/mapper/luksdev"].
Proof.
  exact (C5_close_keeps_mapdev (opens "luksdev") None unlocked_luksdev
           {| MapperDev.mappername := "luksdev" |} eq_refl).
Defined.

(** ** C6: resolving the credential *)


Lemma or_else_falsy {A} (t : A -> bool) (x y : option A) :
  truthy t x = false -> or_else t x y = y.
Proof. unfold or_else. now intros ->. Qed.

Section Resolution.

Variable env : environment.
Variables (password : option secret) (key_file : option string).
Variable st : state.

Lemma resolve_explicit (p : secret) :
  password = Some p -> secret_truthy p = true ->
  fst (resolve_credential env password key_file st)
  = Returns (to_bytes p).
Proof.
  intros -> Hp. unfold resolve_credential, or_else. run_M.
  rewrite Hp. simpl. rewrite Hp. reflexivity.
Qed.

(** An instance-level password that is not [None] is the credential as
    soon as the first guard lets it through, empty or not. *)
Lemma resolve_instance (p : secret) :
  truthy secret_truthy password = false ->
  Self.password (self st) = Some p ->
  secret_truthy p = true
  \/ truthy str_truthy
       (or_else str_truthy key_file (Self.key_file (self st))) = true ->
  fst (resolve_credential env password key_file st)
  = Returns (to_bytes p).
Proof.
  intros Hno Hp Hor.
  unfold resolve_credential. run_M.
  rewrite !(or_else_falsy _ _ _ Hno), Hp. simpl.
  destruct Hor as [H|H]; rewrite H; rewrite ?orb_true_r; reflexivity.
Qed.

Lemma resolve_key_file (f : string) (contents : bytes) :
  truthy secret_truthy password = false ->
  Self.password (self st) = None ->
  or_else str_truthy key_file (Self.key_file (self st)) = Some f ->
  str_truthy f = true ->
  read_file env f = Some contents ->
  fst (resolve_credential env password key_file st)
  = Returns (rstrip_crlf contents).
Proof.
  intros Hno Hp Hf Ht Hread.
  unfold resolve_credential. run_M.
  rewrite !(or_else_falsy _ _ _ Hno), Hp, Hf. simpl.
  unfold path_exists. rewrite Ht, Hread. reflexivity.
Qed.


End Resolution.



(** ** C7: the three outcomes of [unlock] *)

(** C7.  When the credential resolves, [unlock] ends in one of three ways.
    The open command exits non-zero: a disk error is raised and the
    instance, [mapdev] included, is as before.  It exits with zero and
    [/dev/mapper/<mountpoint>] is a symbolic link: the [MapperDev] is
    recorded in [mapdev] and returned.  It exits with zero and the link is
    absent: [None] is returned, nothing is raised, the instance is as
    before. *)
Theorem C7_unlock_outcomes (env : environment) (partition : Partition.t)
  (mountpoint : string) (password : option secret) (key_file : option string)
  (st : state) (credential : bytes) :
  fst (resolve_credential env password key_file st) = Returns credential ->
  let out := unlock env partition mountpoint password key_file st in
  let code :=
    exit_code
      (worker env (trace st ++ [Spawn (open_command partition mountpoint)])) in
  let link := islink env (trace (snd out)) ("/dev/mapper/" ++ mountpoint) in
  let dev := {| MapperDev.mappername := mountpoint |} in
  (code <> 0%Z ->
   fst out = Raises (DiskError "Could not unlock")
   /\ self (snd out) = self st)
  /\ (code = 0%Z -> link = true ->
      fst out = Returns (Some dev)
      /\ Self.mapdev (self (snd out)) = Some dev)
  /\ (code = 0%Z -> link = false ->
      fst out = Returns None
      /\ self (snd out) = self st).
Proof.
  intros Hres. cbv zeta.
  rewrite (unlock_resolved env _ _ _ _ _ _ Hres). cbv zeta.
  set (tr := trace st ++ unlock_events env _ _ _ _).
  destruct (exit_code _ =? 0)%Z eqn:Hcode; cbn [negb].
  - apply Z.eqb_eq in Hcode.
    destruct (islink env tr _) eqn:Hlink; cbn [fst snd trace self];
      rewrite Hlink; repeat split; auto; congruence.
  - apply Z.eqb_neq in Hcode. cbn [fst snd trace self].
    repeat split; auto; congruence.
Qed.

(** The right passphrase opens [luksdev]. *)
Lemma C7_unlock_outcomes_witness :
  fst (unlock (opens "luksdev") sda1 "luksdev" None None luksdev_session)
  = Returns (Some {| MapperDev.mappername := "luksdev" |})
  /\ Self.mapdev (self unlocked_luksdev)
     = Some {| MapperDev.mappername := "luksdev" |}.
Proof.
  exact (proj1 (proj2
           (C7_unlock_outcomes (opens "luksdev") sda1 "luksdev" None None
              luksdev_session (encode_utf8 "hunter2") eq_refl))
           eq_refl eq_refl).
Defined.

Example unlock_wrong_passphrase :
  let env :=
    scripted [] [ {| polls := [prompt_sda1]; exit_code := 512 |} ]
      {| children := None |} (fun _ _ => false) in
  let out := unlock env sda1 "luksdev" None None luksdev_session in
  fst out = Raises (DiskError "Could not unlock")
  /\ Self.mapdev (self (snd out)) = None.
Proof. cbv zeta. split; reflexivity. Qed.

Example unlock_link_absent :
  let env :=
    scripted [] [ {| polls := [prompt_sda1]; exit_code := 0 |} ]
      {| children := None |} (fun _ _ => false) in
  let out := unlock env sda1 "luksdev" None None luksdev_session in
  fst out = Returns None /\ Self.mapdev (self (snd out)) = None.
Proof. cbv zeta. split; reflexivity. Qed.

(** ** C8: the two branches of [close] *)



(** ** C9: what busy recovery does for each child *)

(** C9, as stated, fails: the claim holds the recovery step to both
    statements of the spec, and the second one has children without a
    mountpoint skipped for unmount and close alike.  The child [sda1p1] has
    no mountpoint and [cryptsetup close sda1p1] is issued all the same. *)
Lemma C9_counterexample :
  let out :=
    encrypt_default busy_with_children sda1 None None luksdev_session in
  fst out = Returns true
  /\ commands (trace (snd out))
     = ["lsblk --fs -J /dev/sda1";
        "cryptsetup close sda1p1";
        "umount -R /mnt";
        "cryptsetup close cryptroot"]
  /\ release_child {| child_name := "sda1p1"; child_mountpoint := None |}
     <> [].
Proof.
  cbv zeta. repeat split. discriminate.
Qed.

Lemma commands_release_child (c : child) :
  commands (release_child c) = child_commands c.
Proof.
  unfold release_child, child_commands.
  destruct (child_mountpoint c) as [m|]; [|reflexivity].
  simpl. destruct (str_truthy m); reflexivity.
Qed.

Lemma commands_release (cs : list child) :
  commands (flat_map release_child cs) = flat_map child_commands cs.
Proof.
  induction cs as [|c cs IH]; [reflexivity|].
  simpl. now rewrite commands_app, commands_release_child, IH.
Qed.

Lemma commands_encrypt_poll (prompt password : bytes) (polls : list bytes)
  (g : bool) :
  commands (encrypt_poll prompt password polls g) = [].
Proof.
  revert g. induction polls as [|o r IH]; intros g; simpl; [reflexivity|].
  destruct (contains prompt o && negb g); simpl; apply IH.
Qed.

Lemma commands_retry_poll (password : bytes) (polls : list bytes) (g : bool) :
  commands (retry_poll password polls g) = [].
Proof.
  revert g. induction polls as [|o r IH]; intros g; simpl; [reflexivity|].
  destruct (negb g); simpl; apply IH.
Qed.

(** C9, amended.  In busy recovery [encrypt] runs, after the [lsblk] query,
    for every child of the answer and in the answer's order: [umount -R] on
    its mountpoint exactly when it has a non-empty one, then
    [cryptsetup close] on its name whether it has a mountpoint or not; and
    it runs no other command. *)
Theorem C9_recovery_commands (env : environment) (partition : Partition.t)
  (password : option secret) (key_file : option string)
  (key_size : Z) (hash_type : string) (iter_time : Z) (st : state)
  (credential : bytes) :
  let args :=
    cryptsetup_args (Partition.path partition) hash_type key_size iter_time in
  let probe :=
    [Unmount (Partition.path partition);
     Partprobe (Partition.path partition);
     SysCommand ("lsblk --fs -J " ++ Partition.path partition)] in
  let asked :=
    trace st ++ first_run_events env partition args credential (trace st)
    ++ probe in
  fst (resolve_credential env password key_file st) = Returns credential ->
  exit_code
    (worker env
       (trace st
        ++ [Partprobe (Partition.path partition); Sleep 1; Spawn args]))
  = 256%Z ->
  commands
    (new_events st
       (snd (encrypt env partition password key_file key_size hash_type
               iter_time st)))
  = ("lsblk --fs -J " ++ Partition.path partition)%string
    :: flat_map child_commands (get_children (lsblk_fs env asked))
  /\ forall c, In c (get_children (lsblk_fs env asked)) ->
       In ("cryptsetup close " ++ child_name c)%string (child_commands c)
       /\ forall m,
            In ("umount -R " ++ m)%string (child_commands c)
            <-> child_mountpoint c = Some m /\ m <> "".
Proof.
  intros args probe asked Hres Hbusy.
  split.
  - rewrite (encrypt_resolved env _ _ _ _ _ _ _ _ Hres). cbv zeta.
    fold args. rewrite Hbusy. simpl Z.eqb. cbv iota.
    destruct st as [s tr]. simpl snd. simpl trace.
    rewrite <- app_assoc, new_events_app.
    unfold recovery_events. cbv zeta.
    rewrite !commands_app, commands_retry_poll, app_nil_r.
    unfold first_run_events at 1. cbv zeta.
    rewrite commands_app, commands_encrypt_poll. simpl.
    rewrite commands_release, app_nil_r. f_equal.
    subst asked probe. simpl trace. now rewrite <- app_assoc.
  - intros c _. unfold child_commands. split.
    + apply in_or_app. right. now left.
    + intros m. destruct (child_mountpoint c) as [m'|]; simpl.
      * destruct (str_truthy m') eqn:Ht; simpl.
        -- split.
           ++ intros [H|[H|[]]]; inversion H; subst.
              split; [reflexivity|]. now intros ->.
           ++ intros [H _]. inversion H. now left.
        -- split.
           ++ intros [H|[]]. inversion H.
           ++ intros [H Hm]. inversion H; subst.
              destruct m; [congruence|discriminate].
      * split.
        -- intros [H|[]]. inversion H.
        -- intros [H _]. discriminate.
Qed.

Lemma C9_recovery_commands_witness :
  commands
    (new_events luksdev_session
       (snd (encrypt_default busy_with_children sda1 None None
               luksdev_session)))
  = ["lsblk --fs -J /dev/sda1";
     "cryptsetup close sda1p1";
     "umount -R /mnt";
     "cryptsetup close cryptroot"].
Proof.
  exact (proj1
           (C9_recovery_commands busy_with_children sda1 None None 512%Z
              "sha512" 10000%Z luksdev_session (encode_utf8 "hunter2")
              eq_refl eq_refl)).
Defined.

(** ** C10: which methods write to the instance *)

Section Frame.

Variable env : environment.

Lemma encrypt_keeps_self (partition : Partition.t)
  (password : option secret) (key_file : option string)
  (key_size : Z) (hash_type : string) (iter_time : Z) (st : state) :
  self (snd (encrypt env partition password key_file key_size hash_type
               iter_time st)) = self st.
Proof.
  destruct (fst (resolve_credential env password key_file st))
    as [cred|e] eqn:Hres.
  - rewrite (encrypt_resolved env _ _ _ _ _ _ _ _ Hres). cbv zeta.
    destruct (exit_code _ =? 256)%Z; [|destruct (exit_code _ >? 0)%Z];
      reflexivity.
  - now rewrite (encrypt_unresolved env _ _ _ _ _ _ _ _ Hres).
Qed.

(** [unlock] either leaves the instance alone or, returning the mapped
    device after the link check, sets [mapdev] and nothing else. *)
Lemma unlock_frame (partition : Partition.t) (mountpoint : string)
  (password : option secret) (key_file : option string) (st : state) :
  let out := unlock env partition mountpoint password key_file st in
  let dev := {| MapperDev.mappername := mountpoint |} in
  self (snd out) = self st
  \/ (fst out = Returns (Some dev)
      /\ islink env (trace (snd out)) ("/dev/mapper/" ++ mountpoint) = true
      /\ self (snd out) = set_mapdev (Some dev) (self st)).
Proof.
  cbv zeta.
  destruct (fst (resolve_credential env password key_file st))
    as [cred|e] eqn:Hres.
  - rewrite (unlock_resolved env _ _ _ _ _ _ Hres). cbv zeta.
    set (tr := trace st ++ unlock_events env _ _ _ _).
    destruct (negb _); [now left|].
    destruct (islink env tr _) eqn:Hlink; [right|now left].
    cbn [fst snd trace self]. now rewrite Hlink.
  - rewrite (unlock_unresolved env _ _ _ _ _ _ Hres). now left.
Qed.

Lemma unlock_keeps_password (partition : Partition.t) (mountpoint : string)
  (password : option secret) (key_file : option string) (st : state) :
  Self.password
    (self (snd (unlock env partition mountpoint password key_file st)))
  = Self.password (self st).
Proof.
  destruct (unlock_frame partition mountpoint password key_file st)
    as [H|[_ [_ H]]]; rewrite H; reflexivity.
Qed.

Lemma format_keeps_self (path : string) (st : state) :
  self (snd (format env path st)) = self st.
Proof.
  unfold format. run_M. destruct (negb _); reflexivity.
Qed.

Lemma add_key_keeps_self (path password : string) (st : state) :
  self (snd (add_key env path password st)) = self st.
Proof.
  unfold add_key. destruct (negb (path_exists env path)); [reflexivity|].
  run_M. destruct (negb _); reflexivity.
Qed.

Lemma crypttab_keeps_self (target key_path : string) (options : list string)
  (st : state) :
  self (snd (crypttab env target key_path options st)) = self st.
Proof. reflexivity. Qed.

Lemma exit_keeps_self (exc : option exn) (st : state) :
  self (snd (__exit__ env exc st)) = self st.
Proof.
  unfold __exit__, bind at 1 2, get_self.
  destruct (Self.auto_unmount (self st)).
  - pose proof (close_keeps_self env None st) as H.
    destruct (close env None st) as [[b|e] st']; simpl in H;
      [destruct exc|]; exact H.
  - destruct exc; reflexivity.
Qed.

(** [__enter__] stores the resolved bytes: the encoding of a textual
    password, or the stripped contents of the key file when there is no
    password. *)
Lemma enter_encodes_password (text : string) (st : state) :
  Self.password (self st) = Some (SecretStr text) ->
  Self.password (self (snd (__enter__ env st)))
  = Some (SecretBytes (encode_utf8 text)).
Proof.
  intros Hp. unfold __enter__. unfold bind at 1, get_self at 1.
  rewrite Hp. cbn [is_none andb].
  unfold bind at 1, ret at 1. unfold bind at 1, get_self at 1.
  cbn [self]. rewrite Hp.
  unfold bind at 1, update_self at 1. unfold bind at 1, get_self at 1.
  cbn [self]. now rewrite unlock_keeps_password.
Qed.

Lemma enter_reads_key_file (f : string) (contents : bytes) (st : state) :
  Self.password (self st) = None ->
  Self.key_file (self st) = Some f ->
  read_file env f = Some contents ->
  Self.password (self (snd (__enter__ env st)))
  = Some (SecretBytes (rstrip_crlf contents)).
Proof.
  intros Hp Hf Hread. unfold __enter__. unfold bind at 1, get_self at 1.
  rewrite Hp, Hf. cbn [is_none andb orb truthy].
  unfold path_exists. rewrite Hread. cbn [negb].
  unfold bind at 1. unfold bind at 1, read_key_file. rewrite Hread.
  unfold ret at 1, update_self at 1.
  unfold bind at 1, get_self at 1. cbn [self set_password Self.password].
  unfold bind at 1, ret at 1. unfold bind at 1, get_self at 1.
  cbn [self]. now rewrite unlock_keeps_password.
Qed.

End Frame.

(** C10.  [encrypt] leaves the instance as it found it.  [unlock] keeps
    [password], [key_file], [partition] and [mountpoint], and either leaves
    [mapdev] alone as well or, when it returns the mapped device after the
    link check, sets it.  [close], [format], [add_key], [crypttab] and
    [__exit__] leave the instance alone too.  [__enter__] is where the
    stored password is replaced by the resolved bytes. *)
Theorem C10_stored_fields (env : environment) (partition : Partition.t)
  (mountpoint : string) (password : option secret) (key_file : option string)
  (key_size : Z) (hash_type : string) (iter_time : Z) (st : state) :
  let enc :=
    encrypt env partition password key_file key_size hash_type iter_time st in
  let unl := unlock env partition mountpoint password key_file st in
  let dev := {| MapperDev.mappername := mountpoint |} in
  self (snd enc) = self st
  /\ (Self.password (self (snd unl)) = Self.password (self st)
      /\ Self.key_file (self (snd unl)) = Self.key_file (self st)
      /\ Self.partition (self (snd unl)) = Self.partition (self st)
      /\ Self.mountpoint (self (snd unl)) = Self.mountpoint (self st))
  /\ (self (snd unl) = self st
      \/ (fst unl = Returns (Some dev)
          /\ islink env (trace (snd unl)) ("/dev/mapper/" ++ mountpoint) = true
          /\ self (snd unl) = set_mapdev (Some dev) (self st)))
  /\ (forall closing path key_path new_password target options exc,
         self (snd (close env closing st)) = self st
         /\ self (snd (format env path st)) = self st
         /\ self (snd (add_key env key_path new_password st)) = self st
         /\ self (snd (crypttab env target key_path options st)) = self st
         /\ self (snd (__exit__ env exc st)) = self st)
  /\ (forall text,
         Self.password (self st) = Some (SecretStr text) ->
         Self.password (self (snd (__enter__ env st)))
         = Some (SecretBytes (encode_utf8 text)))
  /\ (forall f contents,
         Self.password (self st) = None ->
         Self.key_file (self st) = Some f ->
         read_file env f = Some contents ->
         Self.password (self (snd (__enter__ env st)))
         = Some (SecretBytes (rstrip_crlf contents))).
Proof.
  cbv zeta.
  pose proof (unlock_frame env partition mountpoint password key_file st)
    as Hunl. cbv zeta in Hunl.
  repeat apply conj.
  - apply encrypt_keeps_self.
  - destruct Hunl as [H|[_ [_ H]]]; now rewrite H.
  - destruct Hunl as [H|[_ [_ H]]]; now rewrite H.
  - destruct Hunl as [H|[_ [_ H]]]; now rewrite H.
  - destruct Hunl as [H|[_ [_ H]]]; now rewrite H.
  - exact Hunl.
  - intros closing path key_path new_password target options exc.
    repeat apply conj.
    + apply close_keeps_self.
    + apply format_keeps_self.
    + apply add_key_keeps_self.
    + apply crypttab_keeps_self.
    + apply exit_keeps_self.
  - intros text. apply enter_encodes_password.
  - intros f contents. apply enter_reads_key_file.
Qed.

(** Entering the context manager with a textual password and with a key
    file only. *)
Lemma C10_stored_fields_witness :
  Self.password (self (snd (__enter__ (opens "luksdev") luksdev_session)))
  = Some (SecretBytes (encode_utf8 "hunter2"))
  /\ Self.password (self (snd (__enter__ with_key_file key_file_session)))
     = Some (SecretBytes (encode_utf8 "s3cret"))
  /\ Self.password (self unlocked_luksdev) = Some hunter2.
Proof.
  repeat apply conj.
  - exact (proj1 (proj2 (proj2 (proj2 (proj2
             (C10_stored_fields (opens "luksdev") sda1 "luksdev" None None
                512%Z "sha512" 10000%Z luksdev_session)))))
             "hunter2" eq_refl).
  - exact (proj2 (proj2 (proj2 (proj2 (proj2
             (C10_stored_fields with_key_file sda1 "luksdev" None None
                512%Z "sha512" 10000%Z key_file_session)))))
             "/root/luks.key" (encode_utf8 "s3cret" ++ [x0d; x0a])
             eq_refl eq_refl eq_refl).
  - exact (proj1 (proj1 (proj2
             (C10_stored_fields (opens "luksdev") sda1 "luksdev" None None
                512%Z "sha512" 10000%Z luksdev_session)))).
Defined.

(** ** The resolved credential is what the processes are given *)

Section Wire.

Variable password : bytes.



Lemma prompt_poll_writes (prompt : bytes) (polls : list bytes) (g : bool) :
  writes_are password (prompt_poll prompt password polls g).
Proof.
  revert g. induction polls as [|o r IH]; intros g data; simpl;
    [intros []|].
  intros [H|H]; try discriminate.
  destruct (contains prompt o && negb g).
  - destruct H as [H|H]; [congruence|exact (IH _ _ H)].
  - exact (IH _ _ H).
Qed.


End Wire.


Lemma writes_are_cons (credential : bytes) (e : event) (l : list event) :
  is_spawn e = true \/ e = Polled [] \/ (forall d, e <> WorkerWrite d) ->
  writes_are credential l -> writes_are credential (e :: l).
Proof.
  intros He Hl data [H|H]; [|auto]. subst e.
  destruct He as [He|[He|He]]; try discriminate. now destruct (He data).
Qed.

(** Every write [unlock] makes carries the credential it resolved. *)
Lemma unlock_writes_credential (env : environment) (partition : Partition.t)
  (mountpoint : string) (password : option secret) (key_file : option string)
  (st : state) (credential : bytes) :
  fst (resolve_credential env password key_file st) = Returns credential ->
  writes_are credential
    (new_events st
       (snd (unlock env partition mountpoint password key_file st))).
Proof.
  intros Hres. rewrite (unlock_resolved env _ _ _ _ _ _ Hres). cbv zeta.
  destruct st as [s tr].
  destruct (negb _); [|destruct (islink env _ _)]; simpl snd; simpl trace;
    rewrite new_events_app; unfold unlock_events;
    (apply writes_are_cons; [now left|apply prompt_poll_writes]).
Qed.


(** * Further properties *)

(** ** [encrypt]: exit codes, processes and writes *)

(** How often each loop writes, exactly. *)
Lemma encrypt_poll_count (prompt password : bytes) (polls : list bytes)
  (g : bool) :
  count_writes (encrypt_poll prompt password polls g)
  = if g then 0 else if existsb (contains prompt) polls then 1 else 0.
Proof.
  revert g. induction polls as [|o r IH]; intros g; simpl.
  - now destruct g.
  - destruct g; rewrite ?andb_false_r; simpl.
    + apply (IH true).
    + destruct (contains prompt o); simpl.
      * now rewrite (IH true).
      * apply (IH false).
Qed.

Lemma prompt_poll_count (prompt password : bytes) (polls : list bytes)
  (g : bool) :
  count_writes (prompt_poll prompt password polls g)
  = if g then 0 else if existsb (contains prompt) polls then 1 else 0.
Proof.
  revert g. induction polls as [|o r IH]; intros g; simpl.
  - now destruct g.
  - destruct g; rewrite ?andb_false_r; simpl.
    + apply (IH true).
    + destruct (contains prompt o); simpl.
      * now rewrite (IH true).
      * apply (IH false).
Qed.

Lemma retry_poll_count (password : bytes) (polls : list bytes) (g : bool) :
  count_writes (retry_poll password polls g)
  = if g then 0 else match polls with [] => 0 | _ :: _ => 1 end.
Proof.
  revert g. induction polls as [|o r IH]; intros g; simpl.
  - now destruct g.
  - destruct g; simpl; [apply (IH true)|now rewrite (IH true)].
Qed.

Section EncryptRuns.

Variable env : environment.
Variable partition : Partition.t.
Variables (password : option secret) (key_file : option string).
Variables (key_size : Z) (hash_type : string) (iter_time : Z).
Variable st : state.
Variable credential : bytes.

Hypothesis resolved :
  fst (resolve_credential env password key_file st) = Returns credential.

Lemma first_run_eq (args : string) :
  worker env
    (trace st ++ [Partprobe (Partition.path partition); Sleep 1; Spawn args])
  = first_run env partition args (trace st).
Proof. reflexivity. Qed.

(** X1.  With the credential resolved, [encrypt] raises the disk error
    exactly when the first run exits with a positive code other than 256;
    on every other exit code, zero, 256 and the negative ones, it returns
    [True]. *)
Theorem encrypt_raises_iff :
  let args :=
    cryptsetup_args (Partition.path partition) hash_type key_size iter_time in
  let code := exit_code (first_run env partition args (trace st)) in
  let out :=
    fst (encrypt env partition password key_file key_size hash_type
           iter_time st) in
  (out = Raises (DiskError "Could not encrypt")
   <-> (0 < code)%Z /\ code <> 256%Z)
  /\ (out = Returns true <-> (code <= 0)%Z \/ code = 256%Z).
Proof.
  cbv zeta. rewrite (encrypt_resolved env _ _ _ _ _ _ _ _ resolved).
  cbv zeta. rewrite first_run_eq.
  destruct (Z.eqb_spec
              (exit_code
                 (first_run env partition
                    (cryptsetup_args (Partition.path partition) hash_type
                       key_size iter_time) (trace st))) 256) as [E|E].
  - simpl fst. split; split; try discriminate; try tauto; try lia.
  - destruct (Z.gtb_spec
                (exit_code
                   (first_run env partition
                      (cryptsetup_args (Partition.path partition) hash_type
                         key_size iter_time) (trace st))) 0) as [G|G];
      simpl fst; split; split; try discriminate; try tauto; try lia.
Qed.

(** X2.  [encrypt] starts [cryptsetup luksFormat] once, or twice when the
    first run exits with 256, and the retried run is given the very command
    line of the first. *)
Theorem encrypt_spawned :
  let args :=
    cryptsetup_args (Partition.path partition) hash_type key_size iter_time in
  let code := exit_code (first_run env partition args (trace st)) in
  spawned
    (new_events st
       (snd (encrypt env partition password key_file key_size hash_type
               iter_time st)))
  = if (code =? 256)%Z then [args; args] else [args].
Proof.
  cbv zeta. rewrite (encrypt_resolved env _ _ _ _ _ _ _ _ resolved).
  cbv zeta. rewrite first_run_eq.
  assert (Hfirst : forall args,
             spawned (first_run_events env partition args credential
                        (trace st)) = [args]).
  { intros args. unfold first_run_events. cbv zeta.
    rewrite spawned_app. simpl.
    now rewrite spawned_no_spawn by apply encrypt_poll_no_spawn. }
  destruct st as [s tr]. simpl trace in *.
  destruct (exit_code _ =? 256)%Z; [|destruct (exit_code _ >? 0)%Z];
    simpl snd; simpl trace; rewrite <- ?app_assoc; rewrite new_events_app;
    auto.
  rewrite spawned_app, Hfirst. unfold recovery_events. cbv zeta.
  rewrite !spawned_app. simpl.
  rewrite (spawned_no_spawn (flat_map _ _))
    by apply release_child_quiet.
  now rewrite spawned_no_spawn by apply retry_poll_no_spawn.
Qed.

(** X3.  The first run is written to once if the prompt shows in its
    output at some poll and never otherwise; the retried run is written to
    once if it is alive at one poll at least, prompt or no prompt. *)
Theorem encrypt_write_counts :
  let args :=
    cryptsetup_args (Partition.path partition) hash_type key_size iter_time in
  let first := first_run env partition args (trace st) in
  let tr1 :=
    trace st ++ first_run_events env partition args credential (trace st) in
  let retried := retried_run env partition args tr1 in
  let answered :=
    if existsb (contains (passphrase_prompt partition)) (polls first)
    then 1 else 0 in
  writes_per_worker
    (new_events st
       (snd (encrypt env partition password key_file key_size hash_type
               iter_time st)))
  = if (exit_code first =? 256)%Z
    then [answered; match polls retried with [] => 0 | _ :: _ => 1 end]
    else [answered].
Proof.
  cbv zeta. rewrite (encrypt_resolved env _ _ _ _ _ _ _ _ resolved).
  cbv zeta. rewrite first_run_eq.
  set (args := cryptsetup_args _ _ _ _).
  assert (Hfirst : forall rest,
             forallb (fun e => negb (is_spawn e)) rest = true ->
             writes_per_worker
               (first_run_events env partition args credential (trace st)
                ++ rest)
             = [(if existsb (contains (passphrase_prompt partition))
                      (polls (first_run env partition args (trace st)))
                 then 1 else 0) + count_writes rest]).
  { intros rest Hrest. unfold first_run_events. cbv zeta.
    rewrite <- app_assoc. simpl.
    rewrite count_writes_app, writes_per_worker_app
      by apply encrypt_poll_no_spawn.
    rewrite (writes_per_worker_no_spawn rest Hrest).
    now rewrite encrypt_poll_count. }
  destruct st as [s tr]. simpl trace in *.
  destruct (exit_code _ =? 256)%Z; [|destruct (exit_code _ >? 0)%Z];
    simpl snd; simpl trace; rewrite <- ?app_assoc; rewrite new_events_app.
  - unfold first_run_events at 1. cbv zeta.
    rewrite <- app_assoc. simpl.
    rewrite count_writes_app, writes_per_worker_app
      by apply encrypt_poll_no_spawn.
    rewrite encrypt_poll_count.
    unfold recovery_events, retried_run. cbv zeta.
    set (released := flat_map release_child _).
    destruct (release_child_quiet
                (get_children
                   (lsblk_fs env
                      ((tr ++ first_run_events env partition args credential tr)
                       ++ [Unmount (Partition.path partition);
                           Partprobe (Partition.path partition);
                           SysCommand
                             ("lsblk --fs -J "
                              ++ Partition.path partition)]))))
      as [Hs Hw].
    fold released in Hs, Hw.
    set (loop := retry_poll _ _ _).
    rewrite <- !app_assoc. simpl.
    rewrite count_writes_app, writes_per_worker_app, Hw by exact Hs.
    simpl. rewrite (writes_per_worker_no_spawn loop)
      by apply retry_poll_no_spawn.
    subst loop. rewrite retry_poll_count, Nat.add_0_r.
    rewrite <- !app_assoc. reflexivity.
  - rewrite <- (app_nil_r (first_run_events _ _ _ _ _)).
    rewrite Hfirst by reflexivity. now rewrite Nat.add_0_r.
  - rewrite <- (app_nil_r (first_run_events _ _ _ _ _)).
    rewrite Hfirst by reflexivity. now rewrite Nat.add_0_r.
Qed.

End EncryptRuns.

Lemma encrypt_raises_iff_witness :
  fst (encrypt_default (exits_with 1) sda1 None None luksdev_session)
  = Raises (DiskError "Could not encrypt")
  /\ fst (encrypt_default (exits_with (-1)) sda1 None None luksdev_session)
     = Returns true.
Proof.
  split.
  - apply (proj1 (encrypt_raises_iff (exits_with 1) sda1 None None 512%Z
                    "sha512" 10000%Z luksdev_session (encode_utf8 "hunter2")
                    eq_refl)).
    split; [reflexivity|discriminate].
  - apply (proj2 (encrypt_raises_iff (exits_with (-1)) sda1 None None 512%Z
                    "sha512" 10000%Z luksdev_session (encode_utf8 "hunter2")
                    eq_refl)).
    left. discriminate.
Defined.

Lemma encrypt_spawned_witness :
  length
    (spawned
       (new_events luksdev_session
          (snd (encrypt_default (busy_then 0) sda1 None None
                  luksdev_session)))) = 2.
Proof.
  unfold encrypt_default.
  rewrite (encrypt_spawned (busy_then 0) sda1 None None 512%Z "sha512"
             10000%Z luksdev_session (encode_utf8 "hunter2") eq_refl).
  reflexivity.
Defined.

Lemma encrypt_write_counts_witness :
  writes_per_worker
    (new_events luksdev_session
       (snd (encrypt_default silent_retry sda1 None None luksdev_session)))
  = [1; 1].
Proof.
  unfold encrypt_default.
  rewrite (encrypt_write_counts silent_retry sda1 None None 512%Z "sha512"
             10000%Z luksdev_session (encode_utf8 "hunter2") eq_refl).
  reflexivity.
Defined.

(** ** [unlock]: writes, and what follows it *)

(** X4.  With the credential resolved, the process [unlock] starts is
    written to once if the prompt shows in its output at some poll, and
    never if it exits without having shown it. *)
Theorem unlock_write_count (env : environment) (partition : Partition.t)
  (mountpoint : string) (password : option secret) (key_file : option string)
  (st : state) (credential : bytes) :
  fst (resolve_credential env password key_file st) = Returns credential ->
  let r :=
    worker env (trace st ++ [Spawn (open_command partition mountpoint)]) in
  writes_per_worker
    (new_events st (snd (unlock env partition mountpoint password key_file st)))
  = [if existsb (contains (passphrase_prompt partition)) (polls r)
     then 1 else 0].
Proof.
  intros Hres. cbv zeta.
  rewrite (unlock_resolved env _ _ _ _ _ _ Hres). cbv zeta.
  destruct st as [s tr]. simpl trace.
  destruct (negb _); [|destruct (islink env _ _)]; simpl snd; simpl trace;
    rewrite new_events_app; unfold unlock_events; simpl;
    rewrite writes_per_worker_no_spawn by apply prompt_poll_no_spawn;
    now rewrite prompt_poll_count.
Qed.

Lemma unlock_write_count_witness :
  writes_per_worker
    (new_events luksdev_session
       (snd (unlock (opens "luksdev") sda1 "luksdev" None None
               luksdev_session)))
  = [1].
Proof.
  rewrite (unlock_write_count (opens "luksdev") sda1 "luksdev" None None
             luksdev_session (encode_utf8 "hunter2") eq_refl).
  reflexivity.
Defined.

(** X5.  When [unlock] returns a mapped device, its path is
    [/dev/mapper/<mountpoint>], and a [close()] that follows closes that
    very path and returns whether it is no longer a link. *)
Theorem unlock_then_close (env : environment) (partition : Partition.t)
  (mountpoint : string) (password : option secret) (key_file : option string)
  (st : state) (dev : MapperDev.t) :
  fst (unlock env partition mountpoint password key_file st)
  = Returns (Some dev) ->
  let st1 := snd (unlock env partition mountpoint password key_file st) in
  MapperDev.path dev = ("/dev/mapper/" ++ mountpoint)%string
  /\ close env None st1 = close_issued env (MapperDev.path dev) st1.
Proof.
  destruct (fst (resolve_credential env password key_file st))
    as [cred|e] eqn:Hres.
  - rewrite (unlock_resolved env _ _ _ _ _ _ Hres). cbv zeta.
    destruct (negb _); [discriminate|].
    destruct (islink env _ _); [|discriminate].
    simpl. intros H. injection H as <-. split; reflexivity.
  - rewrite (unlock_unresolved env _ _ _ _ _ _ Hres). discriminate.
Qed.

Lemma unlock_then_close_witness :
  close (opens "luksdev") None unlocked_luksdev
  = close_issued (opens "luksdev") "/dev/mapper/luksdev" unlocked_luksdev.
Proof.
  exact (proj2
           (unlock_then_close (opens "luksdev") sda1 "luksdev" None None
              luksdev_session {| MapperDev.mappername := "luksdev" |}
              eq_refl)).
Defined.




(** ** [add_key] and [format] *)

Section AddKey.

Variable env : environment.
Variables path password : string.
Variable st : state.

(** X7.  [add_key] on a key file that does not exist raises [OSError] with
    errno 2 and does nothing else: no process is started, instance and
    trace are as before. *)
Theorem add_key_missing_file :
  path_exists env path = false ->
  exists msg, add_key env path password st = (Raises (OSError 2 msg), st).
Proof.
  intros H. unfold add_key. rewrite H. simpl. eexists. reflexivity.
Qed.

(** X8.  [add_key] on an existing key file starts one process, [cryptsetup
    luksAddKey] on the instance's partition and the key file; it writes to
    it nothing but the [password] argument, and only after [Enter any
    existing passphrase] showed in the output; it returns [True] exactly
    when the process exits with zero and raises the disk error otherwise. *)
Theorem add_key_existing_file :
  path_exists env path = true ->
  let cmd :=
    ("/usr/bin/cryptsetup -q -v luksAddKey "
     ++ Partition.path (Self.partition (self st)) ++ " " ++ path)%string in
  let code := exit_code (worker env (trace st ++ [Spawn cmd])) in
  let out := add_key env path password st in
  let evs := new_events st (snd out) in
  spawned evs = [cmd]
  /\ writes_are (encode_utf8 password) evs
  /\ writes_follow_prompt (encode_utf8 "Enter any existing passphrase")
       false evs = true
  /\ (fst out = Returns true <-> code = 0%Z)
  /\ (fst out = Raises (DiskError "Could not add encryption key")
      <-> code <> 0%Z).
Proof.
  intros H. cbv zeta. unfold add_key. rewrite H. cbn [negb].
  destruct st as [s tr]. run_M. rewrite <- !app_assoc. simpl.
  set (cmd := String "/" _).
  set (loop := prompt_poll _ _ _ _).
  assert (Hevs : spawned (Spawn cmd :: loop) = [cmd]
                 /\ writes_are (encode_utf8 password) (Spawn cmd :: loop)
                 /\ writes_follow_prompt
                      (encode_utf8 "Enter any existing passphrase") false
                      (Spawn cmd :: loop) = true).
  { repeat apply conj.
    - simpl. now rewrite spawned_no_spawn by apply prompt_poll_no_spawn.
    - apply writes_are_cons; [now left|apply prompt_poll_writes].
    - apply prompt_poll_follows_prompt. }
  destruct Hevs as [Hsp [Hwr Hfp]].
  destruct (Z.eqb_spec (exit_code (worker env (tr ++ [Spawn cmd]))) 0)
    as [E|E]; simpl; rewrite new_events_app;
    repeat apply conj; auto; intros; try discriminate; try tauto;
    try congruence.
Qed.

End AddKey.

Lemma add_key_missing_file_witness :
  exists msg,
    add_key (opens "luksdev") "/root/new.key" "hunter2" luksdev_session
    = (Raises (OSError 2 msg), luksdev_session).
Proof.
  exact (add_key_missing_file (opens "luksdev") "/root/new.key" "hunter2"
           luksdev_session eq_refl).
Defined.

Lemma add_key_existing_file_witness :
  fst (add_key adds_key "/root/new.key" "hunter2" luksdev_session)
  = Returns true.
Proof.
  apply (proj1 (proj2 (proj2 (proj2
           (add_key_existing_file adds_key "/root/new.key" "hunter2"
              luksdev_session eq_refl))))).
  reflexivity.
Defined.

(** X9.  [format] issues the [luksErase] command and nothing else, leaves
    the instance alone, and raises the disk error exactly when the command
    exits non-zero. *)
Theorem format_outcome (env : environment) (path : string) (st : state) :
  let cmd := ("/usr/bin/cryptsetup -q -v luksErase " ++ path)%string in
  let code := command_exit_code env (trace st ++ [SysCommand cmd]) in
  let out := format env path st in
  snd out = {| self := self st; trace := trace st ++ [SysCommand cmd] |}
  /\ (fst out = Returns tt <-> code = 0%Z)
  /\ (fst out = Raises (DiskError "Could not format") <-> code <> 0%Z).
Proof.
  cbv zeta. unfold format. run_M.
  set (cmd := String "/" _).
  destruct (Z.eqb_spec
              (command_exit_code env (trace st ++ [SysCommand cmd])) 0)
    as [E|E];
    simpl; repeat apply conj; auto; intros; try discriminate; try tauto;
    try congruence.
Qed.

(** ** What the methods can raise *)

Section Raises.

Variable env : environment.

(** The guards of lines 75 and 78 are the only way for credential
    resolution to fail: once they are passed the key file is there to be
    read. *)
Lemma resolve_raises_only (password : option secret)
  (key_file : option string) (st : state) (e : exn) :
  fst (resolve_credential env password key_file st) = Raises e ->
  e = missing_credential.
Proof.
  unfold resolve_credential. run_M.
  destruct (negb _); [simpl; congruence|].
  destruct (or_else secret_truthy password _) as [p|]; simpl.
  - discriminate.
  - destruct (or_else str_truthy key_file _) as [f|]; simpl;
      [|congruence].
    unfold path_exists.
    destruct (read_file env f); simpl; [discriminate|congruence].
Qed.


End Raises.

(** ** The context manager *)

Section ContextManager.

Variable env : environment.
Variable st : state.

(** The state in which [__enter__] calls [unlock]: the password replaced by
    its bytes. *)
Lemma enter_unfold :
  (Self.password (self st) = None
   /\ truthy (path_exists env) (Self.key_file (self st)) = false
   /\ __enter__ env st = (Raises enter_failure, st))
  \/ exists credential,
       (match Self.password (self st) with
        | Some p => credential = to_bytes p
        | None =>
            exists f contents,
              Self.key_file (self st) = Some f
              /\ read_file env f = Some contents
              /\ credential = rstrip_crlf contents
        end)
       /\ __enter__ env st
          = unlock env (Self.partition (self st)) (Self.mountpoint (self st))
              (Some (SecretBytes credential)) None
              {| self := set_password (Some (SecretBytes credential))
                           (self st);
                 trace := trace st |}.
Proof.
  destruct st as [s tr]. cbn [self trace].
  destruct (Self.password s) as [p|] eqn:Hp.
  - right. exists (to_bytes p). split; [reflexivity|].
    unfold __enter__. unfold bind at 1, get_self at 1.
    cbn [self]. rewrite Hp. cbn [is_none andb].
    unfold bind at 1, ret at 1. unfold bind at 1, get_self at 1.
    cbn [self]. rewrite Hp.
    destruct p as [text|b]; cbn [to_bytes].
    + reflexivity.
    + unfold bind at 1, ret at 1. unfold bind at 1, get_self at 1.
      cbn [self]. rewrite Hp.
      destruct s; simpl in Hp; subst; reflexivity.
  - destruct (Self.key_file s) as [f|] eqn:Hf.
    + destruct (read_file env f) as [contents|] eqn:Hread.
      * right. exists (rstrip_crlf contents).
        split; [now exists f, contents|].
        unfold __enter__. unfold bind at 1, get_self at 1.
        cbn [self]. rewrite Hp, Hf. cbn [is_none andb orb truthy].
        unfold path_exists. rewrite Hread. cbn [negb].
        unfold bind at 1. unfold bind at 1, read_key_file.
        rewrite Hread. reflexivity.
      * left. repeat split.
        -- simpl. unfold path_exists. now rewrite Hread.
        -- unfold __enter__. unfold bind at 1, get_self at 1.
           cbn [self]. rewrite Hp, Hf. cbn [is_none andb orb truthy].
           unfold path_exists. rewrite Hread. reflexivity.
    + left. repeat split.
      unfold __enter__. unfold bind at 1, get_self at 1.
      cbn [self]. rewrite Hp, Hf. reflexivity.
Qed.

End ContextManager.

Lemma unlock_raises_only (env : environment) (partition : Partition.t)
  (mountpoint : string) (password : option secret) (key_file : option string)
  (st : state) (e : exn) :
  fst (unlock env partition mountpoint password key_file st) = Raises e ->
  e = missing_credential \/ e = DiskError "Could not unlock".
Proof.
  destruct (fst (resolve_credential env password key_file st))
    as [cred|e'] eqn:Hres.
  - rewrite (unlock_resolved env _ _ _ _ _ _ Hres). cbv zeta.
    destruct (negb _); [|destruct (islink env _ _)];
      simpl; intros H; try discriminate. right. congruence.
  - rewrite (unlock_unresolved env _ _ _ _ _ _ Hres).
    apply resolve_raises_only in Hres. subst e'.
    simpl. intros H. left. congruence.
Qed.

Lemma unlock_returns_device (env : environment) (partition : Partition.t)
  (mountpoint : string) (password : option secret) (key_file : option string)
  (st : state) (dev : MapperDev.t) :
  fst (unlock env partition mountpoint password key_file st)
  = Returns (Some dev) ->
  dev = {| MapperDev.mappername := mountpoint |}
  /\ self (snd (unlock env partition mountpoint password key_file st))
     = set_mapdev (Some dev) (self st).
Proof.
  destruct (fst (resolve_credential env password key_file st))
    as [cred|e] eqn:Hres.
  - rewrite (unlock_resolved env _ _ _ _ _ _ Hres). cbv zeta.
    destruct (negb _); [discriminate|].
    destruct (islink env _ _); [|discriminate].
    simpl. intros H. injection H as <-. split; reflexivity.
  - rewrite (unlock_unresolved env _ _ _ _ _ _ Hres). discriminate.
Qed.

Lemma close_recorded (env : environment) (st : state) (dev : MapperDev.t) :
  Self.mapdev (self st) = Some dev ->
  close env None st = close_issued env (MapperDev.path dev) st.
Proof.
  intros H. unfold close, close_issued. run_M. now rewrite H.
Qed.

Lemma new_events_same_trace (a a' b : state) :
  trace a = trace a' -> new_events a b = new_events a' b.
Proof. unfold new_events. now intros ->. Qed.

Lemma to_bytes_truthy (p : secret) :
  secret_truthy p = true -> secret_truthy (SecretBytes (to_bytes p)) = true.
Proof.
  destruct p as [[|c r]|[|b l]]; simpl; auto.
Qed.

Section Enter.

Variable env : environment.
Variable st : state.

(** X11.  [__enter__] raises its own assertion exactly when no password is
    stored and no key file exists at the stored path (or no path is
    stored); it then leaves instance and trace as they were, nothing having
    been started. *)
Theorem enter_raises_iff :
  (fst (__enter__ env st) = Raises enter_failure
   <-> Self.password (self st) = None
       /\ truthy (path_exists env) (Self.key_file (self st)) = false)
  /\ (fst (__enter__ env st) = Raises enter_failure ->
      snd (__enter__ env st) = st).
Proof.
  destruct (enter_unfold env st)
    as [[Hp [Hf Heq]]|[cred [Hcred Heq]]]; rewrite Heq.
  - simpl. repeat split; auto.
  - assert (Hno : fst (unlock env (Self.partition (self st))
                         (Self.mountpoint (self st))
                         (Some (SecretBytes cred)) None
                         {| self := set_password (Some (SecretBytes cred))
                                      (self st);
                            trace := trace st |})
                  <> Raises enter_failure).
    { intros H. apply unlock_raises_only in H. destruct H; discriminate. }
    repeat split; try tauto.
    intros [Hp Hf]. rewrite Hp in Hcred.
    destruct Hcred as [f [contents [Hkf [Hread _]]]].
    rewrite Hkf in Hf. simpl in Hf. unfold path_exists in Hf.
    rewrite Hread in Hf. discriminate.
Qed.

(** X12.  [__enter__] with a non-empty stored password: the password is
    stored as bytes, one process is started, [cryptsetup open] on the
    stored partition and mapping name, and whatever is written to it is the
    password's bytes. *)
Theorem enter_with_password (p : secret) :
  Self.password (self st) = Some p -> secret_truthy p = true ->
  let out := __enter__ env st in
  Self.password (self (snd out)) = Some (SecretBytes (to_bytes p))
  /\ spawned (new_events st (snd out))
     = [open_command (Self.partition (self st)) (Self.mountpoint (self st))]
  /\ writes_are (to_bytes p) (new_events st (snd out)).
Proof.
  intros Hp Ht. cbv zeta.
  destruct (enter_unfold env st)
    as [[Hp' _]|[cred [Hcred Heq]]]; [congruence|].
  rewrite Hp in Hcred. subst cred. rewrite Heq.
  set (st' := {| self := _; trace := trace st |}).
  assert (Hres : fst (resolve_credential env
                        (Some (SecretBytes (to_bytes p))) None st')
                 = Returns (to_bytes p)).
  { apply (resolve_explicit env _ None st' (SecretBytes (to_bytes p)));
      [reflexivity|now apply to_bytes_truthy]. }
  rewrite (new_events_same_trace st st') by reflexivity.
  repeat apply conj.
  - now rewrite unlock_keeps_password.
  - now apply (unlock_spawns_given_name env _ _ _ _ st' (to_bytes p)).
  - now apply unlock_writes_credential.
Qed.

(** X13.  [__enter__] with no stored password and a key file that exists:
    the contents without their trailing CR and LF bytes are stored as the
    password, and they are what is written to the one process started, also
    when nothing is left of them. *)
Theorem enter_with_key_file (f : string) (contents : bytes) :
  Self.password (self st) = None ->
  Self.key_file (self st) = Some f -> str_truthy f = true ->
  read_file env f = Some contents ->
  let out := __enter__ env st in
  Self.password (self (snd out)) = Some (SecretBytes (rstrip_crlf contents))
  /\ spawned (new_events st (snd out))
     = [open_command (Self.partition (self st)) (Self.mountpoint (self st))]
  /\ writes_are (rstrip_crlf contents) (new_events st (snd out)).
Proof.
  intros Hp Hf Ht Hread. cbv zeta.
  destruct (enter_unfold env st)
    as [[_ [Hno _]]|[cred [Hcred Heq]]].
  { rewrite Hf in Hno. simpl in Hno. unfold path_exists in Hno.
    rewrite Hread in Hno. discriminate. }
  rewrite Hp in Hcred. destruct Hcred as [f' [c' [Hf' [Hread' ->]]]].
  assert (f' = f) by congruence. subst f'.
  assert (c' = contents) by congruence. subst c'.
  rewrite Heq.
  set (cred := rstrip_crlf contents).
  set (st' := {| self := _; trace := trace st |}).
  assert (Hres : fst (resolve_credential env (Some (SecretBytes cred)) None
                        st') = Returns cred).
  { destruct (secret_truthy (SecretBytes cred)) eqn:Hc.
    - now apply (resolve_explicit env _ None st' (SecretBytes cred)).
    - apply (resolve_instance env _ None st' (SecretBytes cred));
        [exact Hc|reflexivity|].
      right. unfold or_else. simpl. rewrite Hf. simpl. exact Ht. }
  rewrite (new_events_same_trace st st') by reflexivity.
  repeat apply conj.
  - now rewrite unlock_keeps_password.
  - now apply (unlock_spawns_given_name env _ _ _ _ st' cred).
  - now apply unlock_writes_credential.
Qed.

End Enter.

Lemma enter_raises_iff_witness :
  fst (__enter__ no_files key_file_session) = Raises enter_failure.
Proof.
  apply (proj1 (enter_raises_iff no_files key_file_session)).
  split; reflexivity.
Defined.

Lemma enter_with_password_witness :
  writes_are (encode_utf8 "hunter2")
    (new_events luksdev_session
       (snd (__enter__ (opens "luksdev") luksdev_session))).
Proof.
  exact (proj2 (proj2
           (enter_with_password (opens "luksdev") luksdev_session hunter2
              eq_refl eq_refl))).
Defined.

Lemma enter_with_key_file_witness :
  writes_are (encode_utf8 "s3cret")
    (new_events key_file_session
       (snd (__enter__ with_key_file key_file_session))).
Proof.
  exact (proj2 (proj2
           (enter_with_key_file with_key_file key_file_session
              "/root/luks.key" (encode_utf8 "s3cret" ++ [x0d; x0a])
              eq_refl eq_refl eq_refl eq_refl))).
Defined.

Lemma close_never_raises (env : environment) (mountpoint : option string)
  (st : state) :
  exists b, fst (close env mountpoint st) = Returns b.
Proof.
  unfold close. run_M.
  destruct (negb (truthy str_truthy mountpoint) && _);
    [destruct (option_map _ _) as [m|]|destruct mountpoint as [m|]];
    try (now exists false); destruct (str_truthy m); eexists; reflexivity.
Qed.

Lemma exit_eq (env : environment) (exc : option exn) (st : state) :
  __exit__ env exc st
  = (match exc with Some e => Raises e | None => Returns true end,
     if Self.auto_unmount (self st) then snd (close env None st) else st).
Proof.
  unfold __exit__, bind at 1 2, get_self.
  destruct (Self.auto_unmount (self st)).
  - destruct (close_never_raises env None st) as [b Hb].
    destruct (close env None st) as [[b'|e'] st1]; simpl in Hb;
      [|discriminate].
    destruct exc; reflexivity.
  - destruct exc; reflexivity.
Qed.

(** X14.  [__exit__] hands back the exception of the [with] block, if there
    is one, and returns [True] otherwise; before that it calls [close()]
    when [auto_unmount] is set, and does nothing at all when it is not. *)
Theorem exit_outcome (env : environment) (exc : option exn) (st : state) :
  (forall e, exc = Some e -> fst (__exit__ env exc st) = Raises e)
  /\ (exc = None -> fst (__exit__ env exc st) = Returns true)
  /\ (Self.auto_unmount (self st) = false -> snd (__exit__ env exc st) = st)
  /\ (Self.auto_unmount (self st) = true ->
      snd (__exit__ env exc st) = snd (close env None st)).
Proof.
  rewrite exit_eq. simpl.
  repeat apply conj; intros; subst; try reflexivity.
  - now rewrite H.
  - now rewrite H.
Qed.

(** X15.  A [with] block on a session with [auto_unmount]: when [__enter__]
    has returned the mapped device, [__exit__] runs exactly one command,
    [cryptsetup close] on [/dev/mapper/<mountpoint>] for the stored mapping
    name, whether the block raised or not. *)
Theorem context_manager_closes (env : environment) (st : state)
  (dev : MapperDev.t) (exc : option exn) :
  Self.auto_unmount (self st) = true ->
  fst (__enter__ env st) = Returns (Some dev) ->
  let st1 := snd (__enter__ env st) in
  commands (new_events st1 (snd (__exit__ env exc st1)))
  = [("/usr/bin/cryptsetup close /dev/mapper/"
      ++ Self.mountpoint (self st))%string].
Proof.
  intros Hauto Hdev. cbv zeta.
  destruct (enter_unfold env st)
    as [[_ [_ Heq]]|[cred [_ Heq]]]; rewrite Heq in *; [discriminate|].
  set (st' := {| self := _; trace := trace st |}) in *.
  destruct (unlock_returns_device env _ _ _ _ st' dev Hdev) as [-> Hself].
  set (st1 := snd (unlock env _ _ _ _ st')) in *.
  assert (Hauto1 : Self.auto_unmount (self st1) = true).
  { rewrite Hself. exact Hauto. }
  assert (Hmap : Self.mapdev (self st1)
                 = Some {| MapperDev.mappername
                             := Self.mountpoint (self st) |}).
  { now rewrite Hself. }
  rewrite exit_eq, Hauto1. simpl snd.
  rewrite (close_recorded env st1 _ Hmap).
  unfold close_issued. simpl snd. destruct st1 as [s1 tr1]. simpl trace.
  rewrite new_events_app. reflexivity.
Qed.

Lemma context_manager_closes_witness :
  let st1 := snd (__enter__ (opens "luksdev") auto_unmount_session) in
  commands (new_events st1 (snd (__exit__ (opens "luksdev") None st1)))
  = ["/usr/bin/cryptsetup close /dev/mapper/luksdev"].
Proof.
  exact (context_manager_closes (opens "luksdev") auto_unmount_session
           {| MapperDev.mappername := "luksdev" |} None eq_refl eq_refl).
Defined.

(** ** The key file *)

Lemma rstrip_crlf_all (tail : bytes) :
  forallb is_crlf tail = true -> rstrip_crlf tail = [].
Proof.
  induction tail as [|b tail IH]; [reflexivity|].
  simpl forallb. intros H. apply andb_true_iff in H. destruct H as [Hb Ht].
  now rewrite rstrip_crlf_cons, (IH Ht), Hb.
Qed.

Lemma rstrip_crlf_app_tail (l tail : bytes) :
  forallb is_crlf tail = true -> rstrip_crlf (l ++ tail) = rstrip_crlf l.
Proof.
  intros Ht. induction l as [|b l IH].
  - now apply rstrip_crlf_all.
  - simpl app. now rewrite !rstrip_crlf_cons, IH.
Qed.

Lemma rstrip_crlf_fixed (l : bytes) :
  l = [] \/ is_crlf (last l x00) = false -> rstrip_crlf l = l.
Proof.
  induction l as [|b l IH]; [reflexivity|].
  intros [H|H]; [discriminate|].
  rewrite rstrip_crlf_cons.
  destruct l as [|c l].
  - simpl in *. now rewrite H.
  - rewrite IH by (right; exact H). reflexivity.
Qed.

(** X16.  When the credential comes from the key file, it is the contents
    up to and including the last byte that is neither CR nor LF: CR and LF
    bytes inside the secret are kept, any run of them at the end is
    dropped, and a file holding nothing but CR and LF bytes gives the empty
    credential, not an error. *)
Theorem key_file_line_endings (env : environment)
  (password : option secret) (key_file : option string) (st : state)
  (f : string) (secret_bytes tail : bytes) :
  truthy secret_truthy password = false ->
  Self.password (self st) = None ->
  or_else str_truthy key_file (Self.key_file (self st)) = Some f ->
  str_truthy f = true ->
  read_file env f = Some (secret_bytes ++ tail) ->
  forallb is_crlf tail = true ->
  secret_bytes = [] \/ is_crlf (last secret_bytes x00) = false ->
  fst (resolve_credential env password key_file st) = Returns secret_bytes.
Proof.
  intros Hno Hp Hf Ht Hread Htail Hlast.
  rewrite (resolve_key_file env password key_file st f _ Hno Hp Hf Ht Hread).
  now rewrite rstrip_crlf_app_tail, rstrip_crlf_fixed.
Qed.

Lemma key_file_line_endings_witness :
  fst (resolve_credential with_key_file None None key_file_session)
  = Returns (encode_utf8 "s3cret").
Proof.
  exact (key_file_line_endings with_key_file None None key_file_session
           "/root/luks.key" (encode_utf8 "s3cret") [x0d; x0a]
           eq_refl eq_refl eq_refl eq_refl eq_refl eq_refl
           (or_intror eq_refl)).
Defined.

(** ** The command line of [encrypt] *)

Lemma shlex_quote_safe (s : string) :
  s <> "" -> all_chars shell_safe s = true -> shlex_quote s = s.
Proof.
  destruct s as [|c r]; [congruence|]. intros _ H.
  unfold shlex_quote. now rewrite H.
Qed.

Lemma string_of_uint_safe (d : Decimal.uint) :
  all_chars shell_safe (NilEmpty.string_of_uint d) = true.
Proof.
  induction d; simpl; auto.
Qed.

Lemma str_of_int_safe (n : Z) :
  str_of_int n <> "" /\ all_chars shell_safe (str_of_int n) = true.
Proof.
  unfold str_of_int, NilZero.string_of_int, NilZero.string_of_uint.
  destruct (Z.to_int n) as [d|d]; destruct d; simpl;
    (split; [discriminate|]); auto using string_of_uint_safe.
Qed.

(** X17.  For a device path and a hash name that are non-empty and made of
    shell-safe characters, the command line of [encrypt] is the fixed list
    of flags with the hash, the key size, the iteration time and the path
    put in as they are; the two numbers are never quoted. *)
Theorem cryptsetup_args_plain (path hash_type : string)
  (key_size iter_time : Z) :
  path <> "" -> all_chars shell_safe path = true ->
  hash_type <> "" -> all_chars shell_safe hash_type = true ->
  cryptsetup_args path hash_type key_size iter_time
  = ("/usr/bin/cryptsetup --batch-mode --verbose --type luks2"
     ++ " --pbkdf argon2id --hash " ++ hash_type
     ++ " --key-size " ++ str_of_int key_size
     ++ " --iter-time " ++ str_of_int iter_time
     ++ " --use-urandom luksFormat " ++ path)%string.
Proof.
  intros Hp Hps Hh Hhs.
  unfold cryptsetup_args, shlex_join. cbn [map].
  rewrite (shlex_quote_safe path Hp Hps), (shlex_quote_safe hash_type Hh Hhs).
  destruct (str_of_int_safe key_size) as [Hk Hks].
  destruct (str_of_int_safe iter_time) as [Hi His].
  rewrite (shlex_quote_safe _ Hk Hks), (shlex_quote_safe _ Hi His).
  reflexivity.
Qed.

Lemma cryptsetup_args_plain_witness :
  cryptsetup_args "/dev/sda1" "sha512" 512 10000
  = "/usr/bin/cryptsetup --batch-mode --verbose --type luks2 --pbkdf argon2id --hash sha512 --key-size 512 --iter-time 10000 --use-urandom luksFormat /dev/sda1".
Proof.
  apply (cryptsetup_args_plain "/dev/sda1" "sha512" 512 10000);
    (discriminate || reflexivity).
Defined.

Lemma length_append (a b : string) :
  String.length (a ++ b) = String.length a + String.length b.
Proof. induction a as [|c a IH]; simpl; auto. Qed.

Lemma escape_squotes_length (s : string) :
  String.length s <= String.length (escape_squotes s).
Proof.
  induction s as [|c s IH]; simpl; [lia|].
  destruct (Ascii.eqb c squote); simpl; lia.
Qed.

(** X18.  A word reaches the command line of [encrypt] unchanged exactly
    when it is non-empty and made of shell-safe characters only; any other
    word is changed (wrapped in single quotes). *)
Theorem shlex_quote_unchanged_iff (s : string) :
  shlex_quote s = s <-> s <> "" /\ all_chars shell_safe s = true.
Proof.
  split.
  - destruct s as [|c r]; [discriminate|].
    unfold shlex_quote.
    destruct (all_chars shell_safe (String c r)) eqn:E.
    + intros _. split; [discriminate|reflexivity].
    + intros H. apply (f_equal String.length) in H.
      simpl String.length in H. rewrite length_append in H.
      pose proof (escape_squotes_length (String c r)) as L.
      simpl in *. lia.
  - intros [Hne Hs]. now apply shlex_quote_safe.
Qed.

(** ** [crypttab] *)

Lemma all_chars_app (p : ascii -> bool) (a b : string) :
  all_chars p (a ++ b) = (all_chars p a && all_chars p b)%bool.
Proof.
  induction a as [|c a IH]; simpl; [reflexivity|].
  now rewrite IH, andb_assoc.
Qed.

Lemma all_chars_concat (p : ascii -> bool) (sep : string)
  (l : list string) :
  all_chars p sep = true -> forallb (all_chars p) l = true ->
  all_chars p (String.concat sep l) = true.
Proof.
  intros Hsep. induction l as [|x l IH]; [reflexivity|].
  simpl forallb. intros H. apply andb_true_iff in H. destruct H as [Hx Hl].
  simpl. destruct l as [|y l]; [exact Hx|].
  rewrite !all_chars_app, Hx, Hsep. simpl. now apply IH.
Qed.

Lemma append_assoc (a b c : string) :
  ((a ++ b) ++ c = a ++ (b ++ c))%string.
Proof. induction a as [|x a IH]; simpl; [reflexivity|now rewrite IH]. Qed.

(** X19.  [crypttab] appends to [<target>/etc/crypttab], and does nothing
    else.  When the stored mapping name, the UUID of the stored partition,
    the key path and the options hold no line feed, what it appends is one
    line: a text without a line feed, then one line feed. *)
Theorem crypttab_one_line (env : environment) (target key_path : string)
  (options : list string) (st : state) :
  all_chars not_newline (Self.mountpoint (self st)) = true ->
  all_chars not_newline
    (convert_device_to_uuid env (Partition.path (Self.partition (self st))))
  = true ->
  all_chars not_newline key_path = true ->
  forallb (all_chars not_newline) options = true ->
  exists body,
    crypttab env target key_path options st
    = (Returns tt,
       {| self := self st;
          trace :=
            trace st
            ++ [Append (target ++ "/etc/crypttab") (body ++ newline)] |})
    /\ all_chars not_newline body = true.
Proof.
  intros Hm Hu Hk Ho.
  exists (Self.mountpoint (self st) ++ " UUID="
          ++ convert_device_to_uuid env
               (Partition.path (Self.partition (self st)))
          ++ " " ++ key_path ++ " " ++ String.concat "," options)%string.
  split.
  - unfold crypttab. run_M. repeat (rewrite append_assoc; simpl).
    reflexivity.
  - rewrite !all_chars_app, Hm, Hu, Hk. simpl.
    now apply all_chars_concat.
Qed.

Lemma crypttab_one_line_witness :
  exists body,
    crypttab (opens "luksdev") "/mnt" "/root/luks.key" ["luks"; "key-slot=1"]
      luksdev_session
    = (Returns tt,
       {| self := self luksdev_session;
          trace := [Append "/mnt/etc/crypttab" (body ++ newline)] |})
    /\ all_chars not_newline body = true.
Proof.
  exact (crypttab_one_line (opens "luksdev") "/mnt" "/root/luks.key"
           ["luks"; "key-slot=1"] luksdev_session
           eq_refl eq_refl eq_refl eq_refl).
Defined.

(** ** Prompt detection *)

Lemma starts_with_iff (needle hay : bytes) :
  starts_with needle hay = true <-> exists post, hay = needle ++ post.
Proof.
  revert hay. induction needle as [|a n IH]; intros hay; simpl.
  - split; [intros _; now exists hay|reflexivity].
  - destruct hay as [|b h].
    + split; [discriminate|intros [post H]; discriminate].
    + rewrite andb_true_iff, IH. split.
      * intros [Hab [post ->]]. apply Byte.byte_dec_bl in Hab. subst b.
        now exists post.
      * intros [post H]. injection H as -> ->. split.
        -- now apply Byte.byte_dec_lb.
        -- now exists post.
Qed.

Lemma contains_iff_aux (needle hay : bytes) :
  contains needle hay = true <-> exists pre post, hay = pre ++ needle ++ post.
Proof.
  induction hay as [|b h IH].
  - simpl. rewrite orb_false_r, starts_with_iff. split.
    + intros [post H]. now exists [], post.
    + intros [pre [post H]].
      destruct pre; [|discriminate]. now exists post.
  - cbn [contains]. rewrite orb_true_iff, starts_with_iff, IH. split.
    + intros [[post H]|[pre [post H]]].
      * now exists [], post.
      * exists (b :: pre), post. simpl. now rewrite H.
    + intros [[|x pre] [post H]].
      * left. now exists post.
      * right. injection H as -> ->. now exists pre, post.
Qed.

(** X20.  The prompt test of the polling loops succeeds exactly when the
    prompt is a contiguous part of the output collected so far. *)
Theorem contains_iff (needle hay : bytes) :
  contains needle hay = true <-> exists pre post, hay = pre ++ needle ++ post.
Proof. apply contains_iff_aux. Qed.

(** The output only grows, so a prompt once seen stays seen. *)
Lemma contains_grows (needle hay more : bytes) :
  contains needle hay = true -> contains needle (hay ++ more) = true.
Proof.
  rewrite !contains_iff_aux. intros [pre [post ->]].
  exists pre, (post ++ more). now rewrite <- !app_assoc.
Qed.

(** ** A failed [unlock] leaves nothing to close *)

(** X21.  On a session without a recorded mapping, an [unlock] that does
    not return a mapped device (it raised, or the link was absent) records
    none, and the [close()] that follows returns [False] without running
    any command. *)
Theorem failed_unlock_then_close (env : environment)
  (partition : Partition.t) (mountpoint : string)
  (password : option secret) (key_file : option string) (st : state) :
  Self.mapdev (self st) = None ->
  (forall dev,
      fst (unlock env partition mountpoint password key_file st)
      <> Returns (Some dev)) ->
  let st1 := snd (unlock env partition mountpoint password key_file st) in
  Self.mapdev (self st1) = None
  /\ close env None st1 = (Returns false, st1).
Proof.
  intros Hnone Hfail st1.
  assert (Hself : self st1 = self st).
  { destruct (unlock_frame env partition mountpoint password key_file st)
      as [H|[H _]]; [exact H|now destruct (Hfail _ H)]. }
  split; [now rewrite Hself|].
  unfold close. run_M. rewrite Hself, Hnone. reflexivity.
Qed.

Lemma failed_unlock_then_close_witness :
  let st1 := snd (unlock (exits_with 512) sda1 "luksdev" None None
                    luksdev_session) in
  Self.mapdev (self st1) = None
  /\ close (exits_with 512) None st1 = (Returns false, st1).
Proof.
  apply (failed_unlock_then_close (exits_with 512) sda1 "luksdev" None None
           luksdev_session eq_refl).
  intros dev. discriminate.
Defined.
